(** * MediSync: the doctor routes (src/routes/doctors.js)

    A shallow embedding of the request handlers of [routes/doctors.js]: the
    dashboard listing (cache-aside read), accepting and rejecting an
    appointment (update, cache invalidation, notification) and the presence
    routes ([/status/update], [/status], [/status/all]).

    The handlers are asynchronous JavaScript functions that talk to three
    outside services: the relational store ([db.query]), Redis (a key-value
    client and a publisher) and the Socket.IO server.  They are modelled in a
    state-and-exception monad over a [World] that holds the store's tables,
    the Redis keyspace with its expiry times, a clock and the log of the
    remote operations that completed.  Every remote call may raise: the
    [raises] oracle of the world says which ones do.

    The registration, login and profile routes only hand over to the
    controllers and the middleware and are left out. *)

From stdpp Require Import base option list gmap strings pretty sorting.
From Stdlib Require Import ZArith Lia Ascii.

Open Scope string_scope.
Open Scope Z_scope.

(** ** The relational store *)

(** A row of [appointments].  DATE and TIME columns are kept as integers
    (day number, time of day), ordered as the store orders them. *)
Record Appointment := mkAppointment {
  id : Z;
  doctor_id : Z;
  patient_id : Z;
  status : string;
  appointment_date : Z;
  start_time : Z;
  end_time : Z
}.

Record Patient := mkPatient { p_id : Z; p_name : string }.

Record Doctor := mkDoctor { d_id : Z; d_name : string; d_specialization : string }.

Record Tables := mkTables {
  appointments_table : list Appointment;
  patients_table : list Patient;
  doctors_table : list Doctor
}.

(** [SELECT a.*, p.name as patient_name ...] (dashboard). *)
Record ListingRow := mkListingRow {
  l_appt : Appointment;
  l_patient_name : string
}.

(** [SELECT a.*, p.id as patient_id, p.name as patient_name,
    d.name as doctor_name, d.specialization ...] (accept and reject). *)
Record DetailRow := mkDetailRow {
  r_appt : Appointment;
  r_patient_id : Z;
  r_patient_name : string;
  r_doctor_name : string;
  r_specialization : string
}.

(** The four statements the routes send to [db.query], with their
    parameters. *)
Inductive Sql :=
| SelectListing (doctor : Z)
| SelectDetails (appointmentId : string)
| UpdateStatus (newStatus : string) (appointmentId : string)
| SelectDoctorIds.

(** ** Events *)

(** [eventData] of the accept and reject routes.  [appointmentId] is
    [parseInt(req.params.id)]; [None] stands for NaN. *)
Record AppointmentEvent := mkAppointmentEvent {
  ev_appointmentId : option Z;
  ev_patientId : Z;
  ev_status : string;
  ev_doctorName : string;
  ev_specialization : string;
  ev_appointmentDate : Z;
  ev_startTime : Z;
  ev_endTime : Z
}.

(** [statusEvent] of [/status/update]; [timestamp] is the clock reading. *)
Record StatusEvent := mkStatusEvent {
  se_doctorId : Z;
  se_doctorName : string;
  se_status : string;
  se_timestamp : nat
}.

(** ** The JavaScript and store built-ins the routes call

    [JSON.stringify], [JSON.parse] and [parseInt] belong to the language
    runtime, and the conversion of a text parameter to the integer key of
    [appointments.id] to the store.  The handlers are defined for any
    implementation of them. *)
Class Platform := {
  JSON_stringify : list ListingRow → string;
  (** [None]: [JSON.parse] throws a SyntaxError *)
  JSON_parse : string → option (list ListingRow);
  JSON_stringify_appointment : AppointmentEvent → string;
  JSON_stringify_status : StatusEvent → string;
  (** [None]: NaN *)
  parseInt : string → option Z;
  (** [None]: the store rejects the text as a key and the query fails *)
  int4in : string → option Z
}.

(** ** The world *)

(** A remote operation that ran to completion. *)
Inductive Effect :=
| Query (q : Sql)
| Get (key : string)
| SetEx (key : string) (seconds : nat) (value : string)
| Set_ (key : string) (value : string)
| Del (key : string)
| Publish (channel : string) (message : string)
| Emit (event : string) (data : AppointmentEvent).

Record World := mkWorld {
  now : nat;
  db : Tables;
  (** value and, when the key has a time to live, the instant it expires *)
  redis : gmap string (string * option nat);
  (** completed remote operations, oldest first *)
  log : list Effect;
  (** the remote calls that raise instead of completing *)
  raises : Effect → bool
}.

Inductive Exn := TypeError | SyntaxError | QueryError | RedisError.

Inductive Outcome (A : Type) :=
| Returned (a : A)
| Thrown (e : Exn).
Arguments Returned {A} a.
Arguments Thrown {A} e.

Definition M (A : Type) : Type := World → Outcome A * World.

Definition ret {A} (a : A) : M A := λ w, (Returned a, w).

Definition bind {A B} (m : M A) (k : A → M B) : M B :=
  λ w, match m w with
       | (Returned a, w') => k a w'
       | (Thrown e, w') => (Thrown e, w')
       end.

Definition throw {A} (e : Exn) : M A := λ w, (Thrown e, w).

(** [try { body } catch (err) { handler }] *)
Definition try_catch {A} (body : M A) (handler : Exn → M A) : M A :=
  λ w, match body w with
       | (Returned a, w') => (Returned a, w')
       | (Thrown e, w') => handler e w'
       end.

#[global] Instance M_ret : MRet M := @ret.
#[global] Instance M_bind : MBind M := λ A B k m, bind m k.

(** The operation [e] completed: it goes at the end of the log. *)
Definition logged (e : Effect) (w : World) : World :=
  mkWorld (now w) (db w) (redis w) (log w ++ [e]) (raises w).

(** A remote call: it raises [err] when the world says so, and otherwise
    changes the world by [change], is logged, and answers [answer] (computed
    in the world before the change). *)
Definition remote {A} (e : Effect) (err : Exn) (change : World → World)
    (answer : World → A) : M A :=
  λ w, if raises w e then (Thrown err, w)
       else (Returned (answer w), logged e (change w)).

Definition set_db (t : Tables) (w : World) : World :=
  mkWorld (now w) t (redis w) (log w) (raises w).

Definition set_redis (r : gmap string (string * option nat)) (w : World) : World :=
  mkWorld (now w) (db w) r (log w) (raises w).

(** Time passes, nothing else happens. *)
Definition advance (dt : nat) (w : World) : World :=
  mkWorld (now w + dt)%nat (db w) (redis w) (log w) (raises w).

Definition with_raises (f : Effect → bool) (w : World) : World :=
  mkWorld (now w) (db w) (redis w) (log w) f.

(** ** What the store answers *)

(** [CASE WHEN a.status = 'pending' THEN 0 ELSE 1 END] *)
Definition pending_rank (a : Appointment) : Z :=
  if decide (status a = "pending") then 0 else 1.

(** [ORDER BY CASE ... END, a.appointment_date, a.start_time]: the rows are
    compared on these three keys, in this order. *)
Definition listing_le (r1 r2 : ListingRow) : Prop :=
  let a1 := l_appt r1 in
  let a2 := l_appt r2 in
  pending_rank a1 < pending_rank a2 ∨
  (pending_rank a1 = pending_rank a2 ∧
   (appointment_date a1 < appointment_date a2 ∨
    (appointment_date a1 = appointment_date a2 ∧ start_time a1 ≤ start_time a2))).

#[global] Instance listing_le_dec : RelDecision listing_le.
Proof. intros r1 r2. unfold listing_le. simpl. apply _. Defined.

(** [FROM appointments a JOIN patients p ON a.patient_id = p.id
    WHERE a.doctor_id = $1], before the ordering. *)
Definition listing_join (t : Tables) (doctor : Z) : list ListingRow :=
  a ← filter (λ a, doctor_id a = doctor) (appointments_table t);
  p ← filter (λ p, patient_id a = p_id p) (patients_table t);
  [mkListingRow a (p_name p)].

(** The ordered answer.  SQL leaves the order of rows with equal keys open;
    the model sorts by merging, and the properties below use only that the
    answer is sorted and has the rows of the join. *)
Definition listing_rows (t : Tables) (doctor : Z) : list ListingRow :=
  merge_sort listing_le (listing_join t doctor).

(** [FROM appointments a JOIN patients p ON a.patient_id = p.id
    JOIN doctors d ON a.doctor_id = d.id WHERE a.id = $1] *)
Definition detail_rows (t : Tables) (n : Z) : list DetailRow :=
  a ← filter (λ a, id a = n) (appointments_table t);
  p ← filter (λ p, patient_id a = p_id p) (patients_table t);
  d ← filter (λ d, doctor_id a = d_id d) (doctors_table t);
  [mkDetailRow a (p_id p) (p_name p) (d_name d) (d_specialization d)].

Definition with_status (s : string) (a : Appointment) : Appointment :=
  mkAppointment (id a) (doctor_id a) (patient_id a) s
    (appointment_date a) (start_time a) (end_time a).

(** [UPDATE appointments SET status = $1 WHERE id = $2] *)
Definition updated_rows (s : string) (n : Z) (l : list Appointment) : list Appointment :=
  (λ a, if decide (id a = n) then with_status s a else a) <$> l.

Definition update_tables (s : string) (n : Z) (t : Tables) : Tables :=
  mkTables (updated_rows s n (appointments_table t)) (patients_table t) (doctors_table t).

(** ** Remote calls *)

Section Calls.
Context `{Platform}.

(** [db.query] with the dashboard's SELECT. *)
Definition query_listing (doctor : Z) : M (list ListingRow) :=
  remote (Query (SelectListing doctor)) QueryError (λ w, w)
    (λ w, listing_rows (db w) doctor).

(** [db.query] with the SELECT of the accept and reject routes. *)
Definition query_details (appointmentId : string) : M (list DetailRow) :=
  match int4in appointmentId with
  | None => throw QueryError
  | Some n =>
      remote (Query (SelectDetails appointmentId)) QueryError (λ w, w)
        (λ w, detail_rows (db w) n)
  end.

(** [db.query] with the UPDATE. *)
Definition query_update (newStatus appointmentId : string) : M unit :=
  match int4in appointmentId with
  | None => throw QueryError
  | Some n =>
      remote (Query (UpdateStatus newStatus appointmentId)) QueryError
        (λ w, set_db (update_tables newStatus n (db w)) w) (λ _, tt)
  end.

(** [db.query('SELECT id FROM doctors')], then [rows.map(row => row.id)]. *)
Definition query_doctor_ids : M (list Z) :=
  remote (Query SelectDoctorIds) QueryError (λ w, w)
    (λ w, d_id <$> doctors_table (db w)).

End Calls.

(** The value of a key at instant [t]: gone once its expiry is reached. *)
Definition live (t : nat) (e : string * option nat) : option string :=
  match e.2 with
  | Some expiry => if decide (expiry ≤ t)%nat then None else Some e.1
  | None => Some e.1
  end.

Definition redis_get (key : string) : M (option string) :=
  remote (Get key) RedisError (λ w, w) (λ w, redis w !! key ≫= live (now w)).

Definition redis_setEx (key : string) (seconds : nat) (value : string) : M unit :=
  remote (SetEx key seconds value) RedisError
    (λ w, set_redis (<[key := (value, Some (now w + seconds)%nat)]> (redis w)) w)
    (λ _, tt).

Definition redis_set (key value : string) : M unit :=
  remote (Set_ key value) RedisError
    (λ w, set_redis (<[key := (value, None)]> (redis w)) w) (λ _, tt).

Definition redis_del (key : string) : M unit :=
  remote (Del key) RedisError (λ w, set_redis (delete key (redis w)) w) (λ _, tt).

Definition redis_publish (channel message : string) : M unit :=
  remote (Publish channel message) RedisError (λ w, w) (λ _, tt).

(** ** The application object and the request *)

Record Client := mkClient { isOpen : bool }.

Inductive SocketServer := socket_io.

(** [req.app.get('redisClient')], [req.app.get('redisPublisher')] and
    [req.app.get('io')]; [None] is a setting that was never made. *)
Record App := mkApp {
  redisClient : option Client;
  redisPublisher : option Client;
  io : option SocketServer
}.

(** [client && client.isOpen] *)
Definition usable (c : option Client) : bool :=
  match c with
  | Some c => isOpen c
  | None => false
  end.

(** [io.emit(event, data)]: delivery to the connected sockets, in process.
    Calling it on a missing [io] is a TypeError. *)
Definition io_emit (server : option SocketServer) (event : string)
    (data : AppointmentEvent) : M unit :=
  match server with
  | None => throw TypeError
  | Some _ => λ w, (Returned tt, logged (Emit event data) w)
  end.

(** [req.session.doctor] *)
Record SessionDoctor := mkSessionDoctor { sd_id : Z; sd_name : string }.

(** The locals handed to the dashboard view. *)
Record DashboardLocals := mkLocals {
  doctor : SessionDoctor;
  error : option string;
  appointments : list ListingRow;
  fromCache : bool
}.

Inductive JsonBody :=
| error_body (error : string)
| success_body (status : string)
| status_body (status : string)
| statuses_body (statuses : gmap Z string).

Inductive Response :=
| render (view : string) (locals : DashboardLocals)
| redirect (path : string)
| send (code : nat) (text : string)
| json (code : nat) (body : JsonBody).

(** A string is truthy unless it is missing or empty. *)
Definition truthy (v : option string) : bool :=
  match v with
  | Some s => negb (String.eqb s "")
  | None => false
  end.

(** [v || d] *)
Definition or_else (v : option string) (d : string) : string :=
  match v with
  | Some s => if String.eqb s "" then d else s
  | None => d
  end.

(** Reading a property of [rows[0]]: a TypeError when there is no row. *)
Definition property {A B} (row : option A) (f : A → B) : M B :=
  match row with
  | Some r => ret (f r)
  | None => throw TypeError
  end.

(** [new Date()] *)
Definition clock : M nat := λ w, (Returned (now w), w).

(** ** The routes *)

Section Routes.
Context `{Platform}.

Definition json_parse (text : string) : M (list ListingRow) :=
  match JSON_parse text with
  | Some rows => mret rows
  | None => throw SyntaxError
  end.

(** [router.get('/dashboard', doctorAuth, ...)] *)
Definition get_dashboard (app : App) (session : SessionDoctor) : M Response :=
  try_catch
    (let doctor_id := sd_id session in
     let redisClient := redisClient app in
     let cacheKey := "appointments:" +:+ pretty doctor_id in
     (* the two variables start as [[]] and [false]; the first try block
        assigns both or, when it throws, neither *)
     '(appointments, fromCache) ←
       try_catch
         (if usable redisClient then
            cachedData ← redis_get cacheKey;
            if truthy cachedData then
              rows ← json_parse (default "" cachedData);
              mret (rows, true)
            else mret ([], false)
          else mret ([], false))
         (λ cacheErr, mret ([], false));
     appointments ←
       (if negb fromCache then
          try_catch
            (rows ← query_listing doctor_id;
             try_catch
               (if usable redisClient then
                  redis_setEx cacheKey 45 (JSON_stringify rows)
                else mret ())
               (λ cacheErr, mret ());;
             mret rows)
            (λ err, mret appointments)
        else mret appointments);
     mret (render "doctors/dashboard"
             (mkLocals session None appointments fromCache)))
    (λ err,
       mret (render "doctors/dashboard"
               (mkLocals session (Some "Error loading appointments.") [] false))).

(** [router.post('/appointment/:id/accept', doctorAuth, ...)] *)
Definition post_appointment_accept (app : App) (appointmentId : string) : M Response :=
  try_catch
    (let redisClient := redisClient app in
     let redisPublisher := redisPublisher app in
     appointmentResult ← query_details appointmentId;
     query_update "accepted" appointmentId;;
     let appointment := head appointmentResult in
     try_catch
       (if usable redisClient then
          doctor ← property appointment (λ r, doctor_id (r_appt r));
          let cacheKey := "appointments:" +:+ pretty doctor in
          redis_del cacheKey
        else mret ())
       (λ cacheErr, mret ());;
     let appointmentId' := parseInt appointmentId in
     patientId ← property appointment r_patient_id;
     doctorName ← property appointment r_doctor_name;
     specialization ← property appointment r_specialization;
     appointmentDate ← property appointment (λ r, appointment_date (r_appt r));
     startTime ← property appointment (λ r, start_time (r_appt r));
     endTime ← property appointment (λ r, end_time (r_appt r));
     let eventData :=
       mkAppointmentEvent appointmentId' patientId "accepted" doctorName
         specialization appointmentDate startTime endTime in
     (if usable redisPublisher then
        try_catch
          (redis_publish "appointment:updated" (JSON_stringify_appointment eventData))
          (λ pubErr, io_emit (io app) "appointmentStatusUpdated" eventData)
      else io_emit (io app) "appointmentStatusUpdated" eventData);;
     mret (redirect "/doctors/dashboard"))
    (λ err, mret (send 500 "Error accepting appointment")).

(** [router.post('/appointment/:id/reject', doctorAuth, ...)] *)
Definition post_appointment_reject (app : App) (appointmentId : string) : M Response :=
  try_catch
    (let redisClient := redisClient app in
     let redisPublisher := redisPublisher app in
     appointmentResult ← query_details appointmentId;
     query_update "rejected" appointmentId;;
     let appointment := head appointmentResult in
     try_catch
       (if usable redisClient then
          doctor ← property appointment (λ r, doctor_id (r_appt r));
          let cacheKey := "appointments:" +:+ pretty doctor in
          redis_del cacheKey
        else mret ())
       (λ cacheErr, mret ());;
     let appointmentId' := parseInt appointmentId in
     patientId ← property appointment r_patient_id;
     doctorName ← property appointment r_doctor_name;
     specialization ← property appointment r_specialization;
     appointmentDate ← property appointment (λ r, appointment_date (r_appt r));
     startTime ← property appointment (λ r, start_time (r_appt r));
     endTime ← property appointment (λ r, end_time (r_appt r));
     let eventData :=
       mkAppointmentEvent appointmentId' patientId "rejected" doctorName
         specialization appointmentDate startTime endTime in
     (if usable redisPublisher then
        try_catch
          (redis_publish "appointment:updated" (JSON_stringify_appointment eventData))
          (λ pubErr, io_emit (io app) "appointmentStatusUpdated" eventData)
      else io_emit (io app) "appointmentStatusUpdated" eventData);;
     mret (redirect "/doctors/dashboard"))
    (λ err, mret (send 500 "Error rejecting appointment")).

Definition validStatuses : list string := ["available"; "busy"; "offline"].

(** [router.post('/status/update', doctorAuth, ...)].  [status] is
    [req.body.status]; [None] is a body without a string there, which
    [validStatuses.includes] does not find. *)
Definition post_status_update (app : App) (session : SessionDoctor)
    (status : option string) : M Response :=
  try_catch
    (let doctorId := sd_id session in
     let doctorName := sd_name session in
     match status with
     | None =>
         mret (json 400 (error_body "Invalid status. Must be available, busy, or offline."))
     | Some status =>
         if negb (bool_decide (status ∈ validStatuses)) then
           mret (json 400 (error_body "Invalid status. Must be available, busy, or offline."))
         else
           let redisClient := redisClient app in
           let redisPublisher := redisPublisher app in
           if usable redisClient then
             let statusKey := "doctor:status:" +:+ pretty doctorId in
             (if String.eqb status "offline" then redis_set statusKey status
              else redis_setEx statusKey 1800 status);;
             timestamp ← clock;
             let statusEvent := mkStatusEvent doctorId doctorName status timestamp in
             (if usable redisPublisher then
                redis_publish "doctor:status:changed" (JSON_stringify_status statusEvent)
              else mret ());;
             mret (json 200 (success_body status))
           else mret (json 503 (error_body "Redis unavailable"))
     end)
    (λ err, mret (json 500 (error_body "Failed to update status"))).

(** [router.get('/status', doctorAuth, ...)] *)
Definition get_status (app : App) (session : SessionDoctor) : M Response :=
  try_catch
    (let doctorId := sd_id session in
     let redisClient := redisClient app in
     if usable redisClient then
       let statusKey := "doctor:status:" +:+ pretty doctorId in
       value ← redis_get statusKey;
       mret (json 200 (status_body (or_else value "offline")))
     else mret (json 200 (status_body "offline")))
    (λ err, mret (json 200 (status_body "offline"))).

(** [for (const id of doctorIds) { ... statuses[id] = status; }] *)
Fixpoint lookup_statuses (doctorIds : list Z) (statuses : gmap Z string)
    : M (gmap Z string) :=
  match doctorIds with
  | [] => mret statuses
  | id :: rest =>
      let statusKey := "doctor:status:" +:+ pretty id in
      value ← redis_get statusKey;
      lookup_statuses rest (<[id := or_else value "offline"]> statuses)
  end.

(** [doctorIds.forEach(id => statuses[id] = 'offline')] *)
Definition all_offline (doctorIds : list Z) (statuses : gmap Z string)
    : gmap Z string :=
  foldl (λ statuses id, <[id := "offline"]> statuses) statuses doctorIds.

(** [router.get('/status/all', ...)] *)
Definition get_status_all (app : App) : M Response :=
  try_catch
    (let redisClient := redisClient app in
     doctorIds ← query_doctor_ids;
     statuses ←
       (if usable redisClient then lookup_statuses doctorIds ∅
        else mret (all_offline doctorIds ∅));
     mret (json 200 (statuses_body statuses)))
    (λ err, mret (json 500 (error_body "Failed to get statuses"))).

End Routes.

(** ** A platform and a clinic for the examples

    The theorems hold for every [Platform]; the examples run on this small
    one, which reads plain decimal literals the way [parseInt] and the store
    do and prints a listing as the bracketed list of its appointment ids. *)

Definition digit (c : Ascii.ascii) : option Z :=
  let n := Z.of_N (Ascii.N_of_ascii c) in
  if decide (48 ≤ n ≤ 57) then Some (n - 48) else None.

Fixpoint digits (acc : Z) (s : string) : option Z :=
  match s with
  | EmptyString => Some acc
  | String c rest => d ← digit c; digits (10 * acc + d) rest
  end.

Definition decimal (s : string) : option Z :=
  match s with
  | EmptyString => None
  | String c rest =>
      if Ascii.eqb c "-"%char then
        (if String.eqb rest "" then None else Z.opp <$> digits 0 rest)
      else digits 0 s
  end.

Definition show_ids (rows : list ListingRow) : string :=
  "[" +:+ String.concat "," ((λ r, pretty (id (l_appt r))) <$> rows) +:+ "]".

Definition show_appointment_event (e : AppointmentEvent) : string :=
  "{appointmentId:" +:+ from_option pretty "NaN" (ev_appointmentId e) +:+
  ",patientId:" +:+ pretty (ev_patientId e) +:+
  ",status:" +:+ ev_status e +:+
  ",doctorName:" +:+ ev_doctorName e +:+ "}".

Definition show_status_event (e : StatusEvent) : string :=
  "{doctorId:" +:+ pretty (se_doctorId e) +:+
  ",doctorName:" +:+ se_doctorName e +:+
  ",status:" +:+ se_status e +:+
  ",timestamp:" +:+ pretty (se_timestamp e) +:+ "}".

Definition example_platform : Platform := {|
  JSON_stringify := show_ids;
  JSON_parse := λ s, if String.eqb s "[]" then Some [] else None;
  JSON_stringify_appointment := show_appointment_event;
  JSON_stringify_status := show_status_event;
  parseInt := decimal;
  int4in := decimal
|}.

(** One doctor, two patients, three appointments: one pending and two
    accepted ones, the later of the two stored first. *)
Definition clinic : Tables := {|
  appointments_table :=
    [ mkAppointment 41 1 7 "accepted" 19732 540 570;
      mkAppointment 42 1 8 "pending" 19740 600 630;
      mkAppointment 43 1 7 "accepted" 19727 660 690 ];
  patients_table := [ mkPatient 7 "Asha"; mkPatient 8 "Ken" ];
  doctors_table := [ mkDoctor 1 "Rao" "Cardiology" ]
|}.

Definition calm : Effect → bool := λ _, false.

Definition store_down : Effect → bool :=
  λ e, match e with Query _ => true | _ => false end.

Definition cache_down : Effect → bool :=
  λ e, match e with
       | Get _ | SetEx _ _ _ | Set_ _ _ | Del _ => true
       | _ => false
       end.

Definition populate_down : Effect → bool :=
  λ e, match e with SetEx _ _ _ => true | _ => false end.

Definition publisher_down : Effect → bool :=
  λ e, match e with Publish _ _ => true | _ => false end.

Definition world0 : World := mkWorld 1000 clinic ∅ [] calm.

Definition rao : SessionDoctor := mkSessionDoctor 1 "Rao".

(** Everything connected. *)
Definition app_up : App :=
  mkApp (Some (mkClient true)) (Some (mkClient true)) (Some socket_io).

(** Redis never configured; Socket.IO present. *)
Definition app_plain : App := mkApp None None (Some socket_io).

(** Redis key-value client connected, publisher not. *)
Definition app_cache_only : App :=
  mkApp (Some (mkClient true)) (Some (mkClient false)) (Some socket_io).


(** ** Vocabulary of the statements *)

(** The presence key of the doctor of a session. *)
Definition status_key (session : SessionDoctor) : string :=
  "doctor:status:" +:+ pretty (sd_id session).

(** The listing key of the doctor of a session. *)
Definition listing_key (session : SessionDoctor) : string :=
  "appointments:" +:+ pretty (sd_id session).

(** What the first try block of the dashboard finds in the cache: the
    parsed listing on a hit, and [None] when the client is not usable, the
    read raises, the key is absent, expired or empty, or its text does not
    parse. *)
Definition cache_lookup `{Platform} (app : App) (session : SessionDoctor)
    (w : World) : option (list ListingRow) :=
  if usable (redisClient app) && negb (raises w (Get (listing_key session))) then
    let cachedData := redis w !! listing_key session ≫= live (now w) in
    if truthy cachedData then JSON_parse (default "" cachedData) else None
  else None.

(** Two rows in the order of the listing: a pending row never comes after a
    settled one and, within the pending rows and within the settled rows,
    dates ascend and, on one date, start times ascend. *)
Definition in_listing_order (r1 r2 : ListingRow) : Prop :=
  let a1 := l_appt r1 in
  let a2 := l_appt r2 in
  (status a2 = "pending" → status a1 = "pending") ∧
  ((status a1 = "pending" ↔ status a2 = "pending") →
   appointment_date a1 ≤ appointment_date a2 ∧
   (appointment_date a1 = appointment_date a2 → start_time a1 ≤ start_time a2)).

(** The accept route with its two texts as parameters: the status literal
    (['accepted'] in the UPDATE and in [eventData]) and the body of the 500
    answer.  The accept and the reject routes are both instances of it. *)
Definition status_change `{Platform} (newStatus failure : string) (app : App)
    (appointmentId : string) : M Response :=
  try_catch
    (let redisClient := redisClient app in
     let redisPublisher := redisPublisher app in
     appointmentResult ← query_details appointmentId;
     query_update newStatus appointmentId;;
     let appointment := head appointmentResult in
     try_catch
       (if usable redisClient then
          doctor ← property appointment (λ r, doctor_id (r_appt r));
          let cacheKey := "appointments:" +:+ pretty doctor in
          redis_del cacheKey
        else mret ())
       (λ cacheErr, mret ());;
     let appointmentId' := parseInt appointmentId in
     patientId ← property appointment r_patient_id;
     doctorName ← property appointment r_doctor_name;
     specialization ← property appointment r_specialization;
     appointmentDate ← property appointment (λ r, appointment_date (r_appt r));
     startTime ← property appointment (λ r, start_time (r_appt r));
     endTime ← property appointment (λ r, end_time (r_appt r));
     let eventData :=
       mkAppointmentEvent appointmentId' patientId newStatus doctorName
         specialization appointmentDate startTime endTime in
     (if usable redisPublisher then
        try_catch
          (redis_publish "appointment:updated" (JSON_stringify_appointment eventData))
          (λ pubErr, io_emit (io app) "appointmentStatusUpdated" eventData)
      else io_emit (io app) "appointmentStatusUpdated" eventData);;
     mret (redirect "/doctors/dashboard"))
    (λ err, mret (send 500 failure)).

(** The specification's reading of the reject route: the accept route with
    the literal ['accepted'] replaced by [literal] throughout, everything
    else (the failure text included) as the accept route has it. *)
Definition accept_with `{Platform} (literal : string) : App → string → M Response :=
  status_change literal "Error accepting appointment".

(** The one text of the accept route that is not the status literal. *)
Definition as_rejection (r : Outcome Response) : Outcome Response :=
  match r with
  | Returned (send code text) =>
      Returned (send code
        (if String.eqb text "Error accepting appointment"
         then "Error rejecting appointment" else text))
  | _ => r
  end.

(** [eventData], built from the row read before the update. *)
Definition event_of `{Platform} (newStatus appointmentId : string) (r : DetailRow)
    : AppointmentEvent :=
  mkAppointmentEvent (parseInt appointmentId) (r_patient_id r) newStatus
    (r_doctor_name r) (r_specialization r) (appointment_date (r_appt r))
    (start_time (r_appt r)) (end_time (r_appt r)).

(** The row a status change works on, when it gets as far as the notifier:
    the key is accepted by the store, neither statement raises and the
    SELECT finds a row. *)
Definition resolved `{Platform} (newStatus appointmentId : string) (w : World)
    : option DetailRow :=
  n ← int4in appointmentId;
  if raises w (Query (SelectDetails appointmentId))
     || raises w (Query (UpdateStatus newStatus appointmentId))
  then None
  else head (detail_rows (db w) n).

(** Deliveries: on the broadcast channel, and directly to the sockets. *)
Definition is_broadcast (e : Effect) : bool :=
  match e with Publish _ _ => true | _ => false end.

Definition is_direct (e : Effect) : bool :=
  match e with Emit _ _ => true | _ => false end.

Definition is_delivery (e : Effect) : bool := is_broadcast e || is_direct e.

(** The operations a run from [w] to [w'] added to the log. *)
Definition new_effects (w w' : World) : list Effect :=
  drop (length (log w)) (log w').

Definition deliveries (w w' : World) : list Effect :=
  filter is_delivery (new_effects w w').

(** What the notifier of the accept and reject routes delivers: the
    broadcast when the publisher is usable and the publish completes, the
    direct emit otherwise, and nothing when that has no [io] to go to. *)
Definition notified `{Platform} (app : App) (w : World) (ev : AppointmentEvent)
    : list Effect :=
  let message := JSON_stringify_appointment ev in
  if usable (redisPublisher app)
     && negb (raises w (Publish "appointment:updated" message))
  then [Publish "appointment:updated" message]
  else match io app with
       | Some _ => [Emit "appointmentStatusUpdated" ev]
       | None => []
       end.

(** The presence of doctor [i] as the cache has it: the live, non-empty
    value under his key, and offline otherwise. *)
Definition presence (w : World) (i : Z) : string :=
  or_else (redis w !! ("doctor:status:" +:+ pretty i) ≫= live (now w)) "offline".

(** ** More worlds for the examples *)

(** The clinic at instant 1000 with a listing in the cache for doctor 1: an
    empty one, to expire at 1045. *)
Definition world_cached : World :=
  mkWorld 1000 clinic {[ "appointments:1" := ("[]", Some 1045%nat) ]} [] calm.

(** A doctor on no appointment. *)
Definition sen : SessionDoctor := mkSessionDoctor 2 "Sen".


(** The deletion of the listing key in the accept and reject routes, when it
    happens: the client is usable and the deletion completes. *)
Definition invalidated (app : App) (w : World) (r : DetailRow) : list Effect :=
  let cacheKey := "appointments:" +:+ pretty (doctor_id (r_appt r)) in
  if usable (redisClient app) && negb (raises w (Del cacheKey))
  then [Del cacheKey] else [].

(** The two routes that change the status of an appointment, each with the
    status it writes. *)
Inductive status_route `{Platform} : string → (App → string → M Response) → Prop :=
| accept_route : status_route "accepted" post_appointment_accept
| reject_route : status_route "rejected" post_appointment_reject.

(** ** The connection test (src/test-redis.js)

    A script: connect, write the key [test], read it back, print it,
    disconnect; whatever fails on the way is reported by the catch block.
    The ['error'] listener, which the client calls on its own, is outside
    this control flow and is left out. *)

(** What the script leaves behind: the lines of [console.log], the lines
    of [console.error] of the catch block, and whether
    [client.disconnect()] ran to completion. *)
Record Terminal := mkTerminal {
  printed : list string;
  complained : list string;
  disconnected : bool
}.

(** [console.log('✅ Value:', value)]: the arguments separated by a space,
    [null] for a missing key. *)
Definition value_line (value : option string) : string :=
  "✅ Value: " +:+ default "null" value.

(** [console.error('❌ Connection failed:', err.message)] *)
Definition failure_line (message : string) : string :=
  "❌ Connection failed: " +:+ message.

(** The script.  [connect] and [disconnect] say whether
    [client.connect()] and [client.disconnect()] raise, and with what;
    [message] is [err.message]. *)
Definition test_redis (connect disconnect : option Exn) (message : Exn → string)
    (w : World) : Terminal * World :=
  match connect with
  | Some err => (mkTerminal [] [failure_line (message err)] false, w)
  | None =>
      let connected := ["✅ Connected to Redis!"] in
      match redis_set "test" "Hello Redis" w with
      | (Thrown err, w1) =>
          (mkTerminal connected [failure_line (message err)] false, w1)
      | (Returned _, w1) =>
          match redis_get "test" w1 with
          | (Thrown err, w2) =>
              (mkTerminal connected [failure_line (message err)] false, w2)
          | (Returned value, w2) =>
              let lines := (connected ++ [value_line value])%list in
              match disconnect with
              | Some err => (mkTerminal lines [failure_line (message err)] false, w2)
              | None => (mkTerminal lines [] true, w2)
              end
          end
      end
  end.

(** * Properties *)

(** ** Running the monad *)

Lemma remote_raises {A} e err change (answer : World → A) w :
  raises w e = true → remote e err change answer w = (Thrown err, w).
Proof. intros Hr. unfold remote. by rewrite Hr. Qed.

Lemma remote_completes {A} e err change (answer : World → A) w :
  raises w e = false →
  remote e err change answer w = (Returned (answer w), logged e (change w)).
Proof. intros Hr. unfold remote. by rewrite Hr. Qed.

Lemma new_effects_app w w' (l : list Effect) :
  log w' = (log w ++ l)%list → new_effects w w' = l.
Proof. intros Hl. unfold new_effects. rewrite Hl. apply drop_app_length. Qed.

Ltac unfold_monad :=
  unfold try_catch, mbind, M_bind, bind, mret, M_ret, ret, throw, clock.

Ltac unfold_calls :=
  unfold redis_get, redis_set, redis_setEx, redis_del, redis_publish,
    query_listing, query_details, query_update, query_doctor_ids,
    io_emit, property, json_parse.

(** ** Presence: [/status/update] and [/status] *)

(** C8. A status outside available, busy, offline (or no status at all) is
    answered with 400 and the world is left exactly as it was: no key is
    written and nothing is published. *)
Theorem invalid_status_rejected `{Platform} app session status w :
  (∀ s, status = Some s → s ∉ validStatuses) →
  post_status_update app session status w =
    (Returned (json 400 (error_body "Invalid status. Must be available, busy, or offline.")), w).
Proof.
  intros Hbad. unfold post_status_update. unfold_monad.
  destruct status as [s|]; [|done].
  rewrite bool_decide_eq_false_2; [done|]. by apply Hbad.
Qed.

Lemma invalid_status_rejected_witness :
  post_status_update (H:=example_platform) app_up rao (Some "flying") world0 =
    (Returned (json 400 (error_body "Invalid status. Must be available, busy, or offline.")), world0).
Proof.
  apply (invalid_status_rejected (H:=example_platform) app_up rao (Some "flying") world0).
  intros s [= <-]. by apply (bool_decide_eq_false_1 _).
Defined.

(** What [/status] answers, whatever the state of the connection. *)
Lemma get_status_run `{Platform} app session w :
  fst (get_status app session w) =
    Returned (json 200 (status_body
      (if usable (redisClient app) && negb (raises w (Get (status_key session)))
       then or_else (redis w !! status_key session ≫= live (now w)) "offline"
       else "offline"))).
Proof.
  unfold get_status, status_key. unfold_monad. unfold_calls. unfold remote.
  destruct (usable (redisClient app)); [|done].
  by destruct (raises w _).
Qed.

(** The whole run of [/status/update], case by case. *)
Lemma status_update_run `{Platform} app session status w :
  post_status_update app session status w =
    let invalid :=
      json 400 (error_body "Invalid status. Must be available, busy, or offline.") in
    let failed := json 500 (error_body "Failed to update status") in
    match status with
    | None => (Returned invalid, w)
    | Some s =>
        if negb (bool_decide (s ∈ validStatuses)) then (Returned invalid, w)
        else if negb (usable (redisClient app))
        then (Returned (json 503 (error_body "Redis unavailable")), w)
        else
          let offline := String.eqb s "offline" in
          let store := if offline then Set_ (status_key session) s
                       else SetEx (status_key session) 1800 s in
          if raises w store then (Returned failed, w)
          else
            let entry := (s, if offline then None else Some (now w + 1800)%nat) in
            let w1 := logged store
                        (set_redis (<[status_key session := entry]> (redis w)) w) in
            let message :=
              JSON_stringify_status
                (mkStatusEvent (sd_id session) (sd_name session) s (now w)) in
            if negb (usable (redisPublisher app))
            then (Returned (json 200 (success_body s)), w1)
            else if raises w (Publish "doctor:status:changed" message)
            then (Returned failed, w1)
            else (Returned (json 200 (success_body s)),
                  logged (Publish "doctor:status:changed" message) w1)
    end.
Proof.
  unfold post_status_update, status_key. unfold_monad. unfold_calls. unfold remote.
  destruct status as [s|]; [|done]. simpl.
  destruct (bool_decide (s ∈ validStatuses)); [|done]. simpl.
  destruct (usable (redisClient app)); [|done]. simpl.
  destruct (String.eqb s "offline").
  - destruct (raises w (Set_ _ _)); [done|]. simpl.
    destruct (usable (redisPublisher app)); [|done]. simpl.
    by destruct (raises w (Publish _ _)).
  - destruct (raises w (SetEx _ _ _)); [done|]. simpl.
    destruct (usable (redisPublisher app)); [|done]. simpl.
    by destruct (raises w (Publish _ _)).
Qed.

(** A successful [/status/update] had a valid status and left it under the
    doctor's key: without expiry for offline, expiring in 1800 seconds
    otherwise. *)
Lemma status_update_success `{Platform} app session status s w w' :
  post_status_update app session status w = (Returned (json 200 (success_body s)), w') →
  status = Some s ∧ s ∈ validStatuses ∧ now w' = now w ∧
  redis w' !! status_key session =
    Some (s, if String.eqb s "offline" then None else Some (now w + 1800)%nat).
Proof.
  unfold post_status_update, status_key. unfold_monad. unfold_calls. unfold remote.
  destruct status as [s0|]; [|done].
  destruct (bool_decide_reflect (s0 ∈ validStatuses)) as [Hin|]; [|done]. simpl.
  destruct (usable (redisClient app)); [|done].
  destruct (String.eqb s0 "offline") eqn:Hoff.
  - destruct (raises w (Set_ _ _)); [done|]. simpl.
    destruct (usable (redisPublisher app)); simpl.
    + destruct (raises w (Publish _ _)); [done|]. intros [= <- <-]. simpl.
      rewrite Hoff. by rewrite lookup_insert_eq.
    + intros [= <- <-]. simpl. rewrite Hoff. by rewrite lookup_insert_eq.
  - destruct (raises w (SetEx _ _ _)); [done|]. simpl.
    destruct (usable (redisPublisher app)); simpl.
    + destruct (raises w (Publish _ _)); [done|]. intros [= <- <-]. simpl.
      rewrite Hoff. by rewrite lookup_insert_eq.
    + intros [= <- <-]. simpl. rewrite Hoff. by rewrite lookup_insert_eq.
Qed.



(** Once the status is stored, a publish that raises turns the answer into
    a 500; the stored status stays. *)
Lemma status_update_publish_raises `{Platform} app session s w :
  let store := if String.eqb s "offline" then Set_ (status_key session) s
               else SetEx (status_key session) 1800 s in
  let message :=
    JSON_stringify_status (mkStatusEvent (sd_id session) (sd_name session) s (now w)) in
  s ∈ validStatuses →
  usable (redisClient app) = true → usable (redisPublisher app) = true →
  raises w store = false →
  raises w (Publish "doctor:status:changed" message) = true →
  ∃ w',
    post_status_update app session (Some s) w =
      (Returned (json 500 (error_body "Failed to update status")), w') ∧
    redis w' !! status_key session =
      Some (s, if String.eqb s "offline" then None else Some (now w + 1800)%nat) ∧
    new_effects w w' = [store].
Proof.
  intros store message Hin Hclient Hpublisher Hstore Hpublish.
  rewrite status_update_run. rewrite bool_decide_eq_true_2 by done.
  rewrite Hclient, Hpublisher. simpl. fold store message. rewrite Hstore, Hpublish.
  eexists. split; [done|]. split; simpl.
  - by rewrite lookup_insert_eq.
  - by apply new_effects_app.
Qed.

(** C7 (what the code does). With the cache and the publisher connected and
    the publish raising, [/status/update] stores busy under the doctor's key
    and then answers 500 "Failed to update status": the failed notification
    is what the caller gets. *)
Theorem status_update_publish_failure :
  ∃ w',
    post_status_update (H:=example_platform) app_up rao (Some "busy")
      (with_raises publisher_down world0) =
      (Returned (json 500 (error_body "Failed to update status")), w') ∧
    redis w' !! status_key rao = Some ("busy", Some 2800%nat) ∧
    log w' = [SetEx (status_key rao) 1800 "busy"].
Proof. eexists. split; [vm_compute; reflexivity|]. split; vm_compute; reflexivity. Qed.

(** ** The dashboard: cache-aside read *)

#[global] Instance listing_le_total : Total listing_le.
Proof. intros r1 r2. unfold listing_le. simpl. lia. Qed.

#[global] Instance listing_le_trans : Transitive listing_le.
Proof. intros r1 r2 r3. unfold listing_le. simpl. lia. Qed.

Lemma listing_le_in_order r1 r2 : listing_le r1 r2 → in_listing_order r1 r2.
Proof.
  unfold listing_le, in_listing_order, pending_rank. simpl.
  repeat case_decide; intros Hle; split; intros; try tauto; lia.
Qed.

Lemma StronglySorted_lookup {A} (R : relation A) (l : list A) i j x y :
  StronglySorted R l → (i < j)%nat → l !! i = Some x → l !! j = Some y → R x y.
Proof.
  intros Hs. revert i j. induction Hs as [|a l Hs IH Hall]; intros i j Hij Hi Hj.
  - done.
  - destruct j as [|j]; [lia|]. simpl in Hj. destruct i as [|i]; simpl in Hi.
    + simplify_eq. rewrite Forall_lookup in Hall. by eapply Hall.
    + eapply (IH i j); [lia|done..].
Qed.

Lemma listing_rows_ordered t d i j ri rj :
  (i < j)%nat → listing_rows t d !! i = Some ri → listing_rows t d !! j = Some rj →
  in_listing_order ri rj.
Proof.
  intros Hij Hi Hj. apply listing_le_in_order.
  eapply (StronglySorted_lookup listing_le); [|done..].
  apply StronglySorted_merge_sort; apply _.
Qed.

Lemma listing_rows_join t d : listing_rows t d ≡ₚ listing_join t d.
Proof. apply merge_sort_Permutation. Qed.

(** The appointments behind the rows of a listing are the doctor's
    appointments whose patient is on record. *)
Lemma listing_rows_appointments t d a :
  a ∈ l_appt <$> listing_rows t d ↔
  a ∈ appointments_table t ∧ doctor_id a = d ∧
  ∃ p, p ∈ patients_table t ∧ p_id p = patient_id a.
Proof.
  rewrite listing_rows_join. unfold listing_join.
  rewrite list_elem_of_fmap. split.
  - intros (r & -> & Hr). apply list_elem_of_bind in Hr as (a & Hr & Ha).
    apply list_elem_of_bind in Hr as (p & Hr & Hp).
    apply list_elem_of_filter in Ha as [Hd Ha]. apply list_elem_of_filter in Hp as [Hid Hp].
    apply list_elem_of_singleton in Hr as ->. simpl. eauto.
  - intros (Ha & Hd & p & Hp & Hid). exists (mkListingRow a (p_name p)). split; [done|].
    apply list_elem_of_bind. exists a. split; [|by apply list_elem_of_filter].
    apply list_elem_of_bind. exists p. split; [by apply list_elem_of_singleton|].
    by apply list_elem_of_filter.
Qed.

Lemma filter_patient_singleton (ps : list Patient) p :
  NoDup (p_id <$> ps) → p ∈ ps →
  filter (λ q, p_id p = p_id q) ps = [p].
Proof.
  induction ps as [|q ps IH]; intros Hnd Hin; [by apply elem_of_nil in Hin|].
  rewrite fmap_cons in Hnd. apply NoDup_cons in Hnd as [Hq Hnd].
  rewrite filter_cons. destruct (decide (p_id p = p_id q)) as [Heq|Hne].
  - assert (p = q) as ->.
    { apply elem_of_cons in Hin as [?|Hin]; [done|].
      exfalso. apply Hq. rewrite <- Heq. apply list_elem_of_fmap. eauto. }
    f_equal. destruct (filter _ ps) as [|q' rest] eqn:Hf; [done|].
    assert (q' ∈ filter (λ q0, p_id q = p_id q0) ps) as Hq' by (rewrite Hf; left).
    apply list_elem_of_filter in Hq' as [Hid Hq'].
    exfalso. apply Hq. rewrite Hid. apply list_elem_of_fmap. eauto.
  - apply IH; [done|]. apply elem_of_cons in Hin as [->|?]; done.
Qed.

(** With patient ids unique and every appointment's patient on record (the
    key and the foreign key of the schema), the join yields each of the
    doctor's appointments once. *)
Lemma listing_join_appointments t d :
  NoDup (p_id <$> patients_table t) →
  (∀ a, a ∈ appointments_table t → ∃ p, p ∈ patients_table t ∧ p_id p = patient_id a) →
  l_appt <$> listing_join t d = filter (λ a, doctor_id a = d) (appointments_table t).
Proof.
  intros Hnd Hfk. unfold listing_join.
  induction (appointments_table t) as [|a l IH]; [done|].
  rewrite filter_cons. destruct (decide (doctor_id a = d)) as [Hd|Hd].
  - rewrite bind_cons, fmap_app. rewrite IH by (intros b Hb; apply Hfk; by right).
    destruct (Hfk a) as (p & Hp & Hid); [by left|].
    rewrite <- Hid. by rewrite (filter_patient_singleton _ p Hnd Hp).
  - apply IH. intros b Hb. apply Hfk. by right.
Qed.

Lemma get_dashboard_hit `{Platform} app session w rows :
  cache_lookup app session w = Some rows →
  get_dashboard app session w =
    (Returned (render "doctors/dashboard" (mkLocals session None rows true)),
     logged (Get (listing_key session)) w).
Proof.
  unfold get_dashboard. unfold_monad. unfold_calls. unfold remote.
  unfold cache_lookup, listing_key.
  destruct (usable (redisClient app)); [|done]. simpl.
  destruct (raises w (Get _)); [done|]. simpl.
  destruct (truthy _); [|done]. by intros ->.
Qed.

(** On a miss the handler goes to the store, and after a successful query
    tries to put the rows in the cache. *)
Lemma get_dashboard_miss `{Platform} app session w :
  cache_lookup app session w = None →
  let d := sd_id session in
  let rows := listing_rows (db w) d in
  let populate := SetEx (listing_key session) 45 (JSON_stringify rows) in
  ∃ w0, (w0 = w ∨ w0 = logged (Get (listing_key session)) w) ∧
    get_dashboard app session w =
      if raises w (Query (SelectListing d)) then
        (Returned (render "doctors/dashboard" (mkLocals session None [] false)), w0)
      else if usable (redisClient app) && negb (raises w populate) then
        (Returned (render "doctors/dashboard" (mkLocals session None rows false)),
         logged populate
           (set_redis (<[listing_key session := (JSON_stringify rows, Some (now w + 45)%nat)]> (redis w))
              (logged (Query (SelectListing d)) w0)))
      else
        (Returned (render "doctors/dashboard" (mkLocals session None rows false)),
         logged (Query (SelectListing d)) w0).
Proof.
  unfold get_dashboard. unfold_monad. unfold_calls. unfold remote.
  unfold cache_lookup, listing_key.
  destruct (usable (redisClient app)); simpl.
  - destruct (raises w (Get _)); simpl.
    + intros _. exists w. split; [by left|].
      destruct (raises w (Query _)); [done|]. simpl.
      by destruct (raises w (SetEx _ _ _)).
    + intros Hmiss. eexists. split; [by right|].
      destruct (truthy _).
      * rewrite Hmiss. simpl.
        destruct (raises w (Query _)); [done|]. simpl.
        by destruct (raises w (SetEx _ _ _)).
      * simpl. destruct (raises w (Query _)); [done|]. simpl.
        by destruct (raises w (SetEx _ _ _)).
  - intros _. exists w. split; [by left|].
    by destruct (raises w (Query _)).
Qed.

(** C2 (as amended). A dashboard read that misses the cache and whose store
    query completes returns the doctor's appointments (those of
    [appointments] with his id and a patient on record: all of his, each
    once, under the keys of the schema), pending rows before settled ones
    and each group by ascending date, then ascending start time.  When the
    cache client is usable and the write completes, the serialized rows are
    then in the cache under the doctor's key, to expire 45 seconds later;
    when the client is not usable or the write raises, the rows are
    returned all the same and the cache is left as it was. *)
Theorem listing_on_miss `{Platform} app session w :
  let d := sd_id session in
  let rows := listing_rows (db w) d in
  let populate := SetEx (listing_key session) 45 (JSON_stringify rows) in
  cache_lookup app session w = None →
  raises w (Query (SelectListing d)) = false →
  ∃ w',
    get_dashboard app session w =
      (Returned (render "doctors/dashboard" (mkLocals session None rows false)), w') ∧
    (∀ a, a ∈ l_appt <$> rows ↔
          a ∈ appointments_table (db w) ∧ doctor_id a = d ∧
          ∃ p, p ∈ patients_table (db w) ∧ p_id p = patient_id a) ∧
    rows ≡ₚ listing_join (db w) d ∧
    (NoDup (p_id <$> patients_table (db w)) →
     (∀ a, a ∈ appointments_table (db w) →
           ∃ p, p ∈ patients_table (db w) ∧ p_id p = patient_id a) →
     l_appt <$> rows ≡ₚ filter (λ a, doctor_id a = d) (appointments_table (db w))) ∧
    (∀ i j ri rj, (i < j)%nat → rows !! i = Some ri → rows !! j = Some rj →
       in_listing_order ri rj) ∧
    (usable (redisClient app) = true → raises w populate = false →
     redis w' !! listing_key session =
       Some (JSON_stringify rows, Some (now w + 45)%nat) ∧
     last (log w') = Some populate) ∧
    (usable (redisClient app) = false ∨ raises w populate = true →
     redis w' = redis w).
Proof.
  intros d rows populate Hmiss Hq.
  destruct (get_dashboard_miss app session w Hmiss) as (w0 & Hw0 & Hrun).
  fold d rows populate in Hrun. rewrite Hq in Hrun.
  assert (∃ w', get_dashboard app session w =
                  (Returned (render "doctors/dashboard"
                               (mkLocals session None rows false)), w') ∧
                (usable (redisClient app) = true → raises w populate = false →
                 redis w' !! listing_key session =
                   Some (JSON_stringify rows, Some (now w + 45)%nat) ∧
                 last (log w') = Some populate) ∧
                (usable (redisClient app) = false ∨ raises w populate = true →
                 redis w' = redis w)) as (w' & Hw' & Hcached & Hnot).
  { destruct (usable (redisClient app)); simpl in Hrun.
    - destruct (raises w populate); simpl in Hrun; eexists; (split; [exact Hrun|]).
      + split; [done|]. intros _. by destruct Hw0 as [-> | ->].
      + split; [|by intros [? | ?]]. intros _ _. simpl.
        split; [by rewrite lookup_insert_eq|by rewrite last_snoc].
    - eexists. split; [exact Hrun|]. split; [done|].
      intros _. by destruct Hw0 as [-> | ->]. }
  exists w'. split; [exact Hw'|].
  split; [apply listing_rows_appointments|].
  split; [apply listing_rows_join|].
  split.
  { intros Hnd Hfk. unfold rows. rewrite listing_rows_join.
    by rewrite listing_join_appointments. }
  split; [apply listing_rows_ordered|].
  split; [exact Hcached|exact Hnot].
Qed.

Lemma listing_on_miss_witness :
  ∃ w',
    get_dashboard (H:=example_platform) app_up rao world0 =
      (Returned (render "doctors/dashboard"
                   (mkLocals rao None (listing_rows clinic 1) false)), w') ∧
    redis w' !! "appointments:1" = Some ("[42,43,41]", Some 1045%nat).
Proof.
  destruct (listing_on_miss (H:=example_platform) app_up rao world0)
    as (w' & Hrun & _ & _ & _ & _ & Hkey & _).
  - vm_compute. reflexivity.
  - reflexivity.
  - exists w'. split; [exact Hrun|]. apply Hkey; reflexivity.
Defined.

(** C2 as stated fails.  The read of the key completes and finds nothing, a
    miss; the store answers and the rows are returned; the write to the
    cache raises and nothing is cached.  Nothing is cached either when Redis
    was never configured. *)
Lemma listing_miss_not_cached :
  let w := with_raises populate_down world0 in
  let run := get_dashboard (H:=example_platform) app_up rao w in
  raises w (Get "appointments:1") = false ∧
  redis w !! "appointments:1" = None ∧
  fst run =
    Returned (render "doctors/dashboard"
                (mkLocals rao None (listing_rows clinic 1) false)) ∧
  ¬ (∃ entry, redis (snd run) !! "appointments:1" = Some entry) ∧
  ¬ (∃ entry,
       redis (snd (get_dashboard (H:=example_platform) app_plain rao world0))
         !! "appointments:1" = Some entry).
Proof.
  split; [reflexivity|]. split; [vm_compute; reflexivity|].
  split; [vm_compute; reflexivity|].
  split; intros (entry & Hentry); vm_compute in Hentry; discriminate.
Qed.

(** The rows of the example, in the order the dashboard shows them: the
    pending appointment, then the two accepted ones by date. *)
Example listing_of_the_clinic :
  id ∘ l_appt <$> listing_rows clinic 1 = [42; 43; 41].
Proof. vm_compute. reflexivity. Qed.

(** C4 (as amended). When the read misses the cache and the store query
    raises, the dashboard is rendered with no appointments, [fromCache]
    false and [error: null]; nothing is raised past the handler and neither
    the store nor the cache changes. *)
Theorem dashboard_store_failure `{Platform} app session w :
  cache_lookup app session w = None →
  raises w (Query (SelectListing (sd_id session))) = true →
  ∃ w',
    get_dashboard app session w =
      (Returned (render "doctors/dashboard" (mkLocals session None [] false)), w') ∧
    db w' = db w ∧ redis w' = redis w.
Proof.
  intros Hmiss Hq.
  destruct (get_dashboard_miss app session w Hmiss) as (w0 & Hw0 & Hrun).
  rewrite Hq in Hrun. exists w0. split; [done|].
  by destruct Hw0 as [-> | ->].
Qed.

Lemma dashboard_store_failure_witness :
  ∃ w',
    get_dashboard (H:=example_platform) app_up rao (with_raises store_down world0) =
      (Returned (render "doctors/dashboard" (mkLocals rao None [] false)), w') ∧
    db w' = clinic ∧ redis w' = ∅.
Proof.
  apply (dashboard_store_failure (H:=example_platform) app_up rao
           (with_raises store_down world0)).
  - vm_compute. reflexivity.
  - reflexivity.
Defined.

(** C4 as stated fails: with the store down the rendered result carries no
    error flag. *)
Lemma dashboard_store_failure_no_error_flag :
  let w := with_raises store_down world0 in
  raises w (Query (SelectListing (sd_id rao))) = true ∧
  ¬ ∃ locals,
      fst (get_dashboard (H:=example_platform) app_up rao w) =
        Returned (render "doctors/dashboard" locals) ∧
      appointments locals = [] ∧ error locals ≠ None.
Proof.
  split; [reflexivity|].
  intros (locals & Hrun & _ & Herr). vm_compute in Hrun.
  injection Hrun as <-. by apply Herr.
Qed.

(** C5. A cache failure never becomes a request failure.  The dashboard is
    always rendered with [error: null]; when the client is unusable or the
    read raises, the rows come from the store; and when the write to the
    cache raises after the store answered, the rows of the store are
    returned with [fromCache] false, the cache being left as it was. *)
Theorem cache_failure_not_surfaced `{Platform} app session w :
  let d := sd_id session in
  let rows := listing_rows (db w) d in
  (∃ locals w',
     get_dashboard app session w = (Returned (render "doctors/dashboard" locals), w') ∧
     error locals = None) ∧
  (usable (redisClient app) = false ∨ raises w (Get (listing_key session)) = true →
   raises w (Query (SelectListing d)) = false →
   fst (get_dashboard app session w) =
     Returned (render "doctors/dashboard" (mkLocals session None rows false))) ∧
  (cache_lookup app session w = None →
   raises w (Query (SelectListing d)) = false →
   raises w (SetEx (listing_key session) 45 (JSON_stringify rows)) = true →
   ∃ w',
     get_dashboard app session w =
       (Returned (render "doctors/dashboard" (mkLocals session None rows false)), w') ∧
     redis w' = redis w).
Proof.
  intros d rows. split; [|split].
  - destruct (cache_lookup app session w) as [hit|] eqn:Hlook.
    + rewrite (get_dashboard_hit _ _ _ _ Hlook). by eexists _, _.
    + destruct (get_dashboard_miss app session w Hlook) as (w0 & _ & ->).
      destruct (raises w (Query _)); [by eexists _, _|].
      destruct (_ && _); by eexists _, _.
  - intros Hget Hq.
    assert (cache_lookup app session w = None) as Hlook.
    { unfold cache_lookup. destruct Hget as [-> | ->]; [done|].
      by rewrite andb_false_r. }
    destruct (get_dashboard_miss app session w Hlook) as (w0 & _ & ->).
    fold d. rewrite Hq. by destruct (_ && _).
  - intros Hlook Hq Hset.
    destruct (get_dashboard_miss app session w Hlook) as (w0 & Hw0 & ->).
    fold d rows. rewrite Hq, Hset, andb_false_r.
    eexists. split; [done|]. by destruct Hw0 as [-> | ->].
Qed.

Lemma cache_failure_not_surfaced_witness :
  fst (get_dashboard (H:=example_platform) app_up rao (with_raises cache_down world0)) =
    Returned (render "doctors/dashboard" (mkLocals rao None (listing_rows clinic 1) false)) ∧
  ∃ w',
    get_dashboard (H:=example_platform) app_up rao (with_raises populate_down world0) =
      (Returned (render "doctors/dashboard"
                   (mkLocals rao None (listing_rows clinic 1) false)), w') ∧
    redis w' = ∅.
Proof.
  split.
  - apply (cache_failure_not_surfaced (H:=example_platform) app_up rao
             (with_raises cache_down world0)).
    + by right.
    + reflexivity.
  - apply (cache_failure_not_surfaced (H:=example_platform) app_up rao
             (with_raises populate_down world0)).
    + vm_compute. reflexivity.
    + reflexivity.
    + reflexivity.
Defined.

(** ** Accepting and rejecting an appointment *)

Lemma accept_is_status_change `{Platform} :
  post_appointment_accept = status_change "accepted" "Error accepting appointment".
Proof. reflexivity. Qed.

Lemma reject_is_status_change `{Platform} :
  post_appointment_reject = status_change "rejected" "Error rejecting appointment".
Proof. reflexivity. Qed.

(** The whole run of a status change, case by case. *)
Lemma status_change_run `{Platform} st failure app aid w :
  status_change st failure app aid w =
    match int4in aid with
    | None => (Returned (send 500 failure), w)
    | Some n =>
        if raises w (Query (SelectDetails aid)) then (Returned (send 500 failure), w)
        else
          let w1 := logged (Query (SelectDetails aid)) w in
          if raises w (Query (UpdateStatus st aid)) then (Returned (send 500 failure), w1)
          else
            let w2 := logged (Query (UpdateStatus st aid))
                        (set_db (update_tables st n (db w)) w1) in
            match head (detail_rows (db w) n) with
            | None => (Returned (send 500 failure), w2)
            | Some r =>
                let key := "appointments:" +:+ pretty (doctor_id (r_appt r)) in
                let w3 := if usable (redisClient app) && negb (raises w (Del key))
                          then logged (Del key) (set_redis (delete key (redis w)) w2)
                          else w2 in
                let ev := event_of st aid r in
                let message := JSON_stringify_appointment ev in
                if usable (redisPublisher app)
                   && negb (raises w (Publish "appointment:updated" message))
                then (Returned (redirect "/doctors/dashboard"),
                      logged (Publish "appointment:updated" message) w3)
                else
                  match io app with
                  | Some _ => (Returned (redirect "/doctors/dashboard"),
                               logged (Emit "appointmentStatusUpdated" ev) w3)
                  | None => (Returned (send 500 failure), w3)
                  end
            end
    end.
Proof.
  unfold status_change, event_of. unfold_monad. unfold_calls. unfold remote.
  destruct (int4in aid) as [n|]; [|done].
  destruct (raises w (Query (SelectDetails aid))); [done|]. simpl.
  destruct (raises w (Query (UpdateStatus st aid))); [done|]. simpl.
  destruct (head (detail_rows (db w) n)) as [r|]; simpl.
  - destruct (usable (redisClient app)); simpl.
    + destruct (raises w (Del _)); simpl.
      * destruct (usable (redisPublisher app)); simpl.
        -- destruct (raises w (Publish _ _)); simpl; [|done]. by destruct (io app).
        -- by destruct (io app).
      * destruct (usable (redisPublisher app)); simpl.
        -- destruct (raises w (Publish _ _)); simpl; [|done]. by destruct (io app).
        -- by destruct (io app).
    + destruct (usable (redisPublisher app)); simpl.
      * destruct (raises w (Publish _ _)); simpl; [|done]. by destruct (io app).
      * by destruct (io app).
  - by destruct (usable (redisClient app)).
Qed.

Lemma updated_rows_absent st n l :
  (∀ a, a ∈ l → id a ≠ n) → updated_rows st n l = l.
Proof.
  intros Habs. unfold updated_rows. induction l as [|a l IH]; [done|].
  rewrite fmap_cons. rewrite decide_False by (apply Habs; left).
  f_equal. apply IH. intros b Hb. apply Habs. by right.
Qed.

Lemma update_tables_absent st n t :
  (∀ a, a ∈ appointments_table t → id a ≠ n) → update_tables st n t = t.
Proof.
  intros Habs. unfold update_tables. rewrite updated_rows_absent by done.
  by destruct t.
Qed.

(** A status change on an id that finds no joined row. *)
Lemma status_change_unresolved `{Platform} st failure app aid w :
  (∀ n, int4in aid = Some n → detail_rows (db w) n = []) →
  ∃ w',
    status_change st failure app aid w = (Returned (send 500 failure), w') ∧
    redis w' = redis w ∧
    (∀ e, e ∈ new_effects w w' →
       e = Query (SelectDetails aid) ∨ e = Query (UpdateStatus st aid)) ∧
    (∀ n, int4in aid = Some n →
       raises w (Query (SelectDetails aid)) = false →
       raises w (Query (UpdateStatus st aid)) = false →
       new_effects w w' = [Query (SelectDetails aid); Query (UpdateStatus st aid)] ∧
       db w' = update_tables st n (db w)) ∧
    ((∀ n a, int4in aid = Some n → a ∈ appointments_table (db w) → id a ≠ n) →
     db w' = db w).
Proof.
  intros Hnone. rewrite status_change_run.
  destruct (int4in aid) as [n|] eqn:Hn.
  - destruct (raises w (Query (SelectDetails aid))) eqn:Hq1.
    { eexists. split; [done|]. split; [done|].
      rewrite (new_effects_app w w []) by (by rewrite app_nil_r).
      split; [by intros e ?%elem_of_nil|]. split; [done|done]. }
    destruct (raises w (Query (UpdateStatus st aid))) eqn:Hq2.
    { eexists. split; [done|]. split; [done|].
      rewrite (new_effects_app w _ [Query (SelectDetails aid)]) by done.
      split; [|split; [done|done]].
      intros e ?%list_elem_of_singleton. by left. }
    rewrite (Hnone n eq_refl). simpl.
    eexists. split; [done|]. split; [done|].
    rewrite (new_effects_app w _ [Query (SelectDetails aid); Query (UpdateStatus st aid)])
      by (simpl; by rewrite <- app_assoc).
    split; [|split].
    + intros e He. apply elem_of_cons in He as [-> | He]; [by left|].
      apply list_elem_of_singleton in He as ->. by right.
    + by intros n' [= <-] _ _.
    + intros Habs. simpl. apply update_tables_absent. intros a. by apply Habs.
  - eexists. split; [done|]. split; [done|].
    rewrite (new_effects_app w w []) by (by rewrite app_nil_r).
    split; [by intros e ?%elem_of_nil|]. split; [done|done].
Qed.

(** C1 (as amended). When the id resolves to no appointment joined with its
    patient and doctor, accepting and rejecting both answer the server error
    (500) of any other failure.  No cache key is deleted and nothing is
    published or emitted: the only operations of the run are the SELECT and
    the UPDATE.  The UPDATE is sent all the same once the SELECT has
    answered; it leaves the tables as they were when no appointment has that
    id. *)
Theorem unresolved_appointment `{Platform} app aid w :
  (∀ n, int4in aid = Some n → detail_rows (db w) n = []) →
  (∃ w',
     post_appointment_accept app aid w =
       (Returned (send 500 "Error accepting appointment"), w') ∧
     redis w' = redis w ∧
     (∀ e, e ∈ new_effects w w' →
        e = Query (SelectDetails aid) ∨ e = Query (UpdateStatus "accepted" aid)) ∧
     (∀ n, int4in aid = Some n →
        raises w (Query (SelectDetails aid)) = false →
        raises w (Query (UpdateStatus "accepted" aid)) = false →
        new_effects w w' =
          [Query (SelectDetails aid); Query (UpdateStatus "accepted" aid)] ∧
        db w' = update_tables "accepted" n (db w)) ∧
     ((∀ n a, int4in aid = Some n → a ∈ appointments_table (db w) → id a ≠ n) →
      db w' = db w)) ∧
  (∃ w',
     post_appointment_reject app aid w =
       (Returned (send 500 "Error rejecting appointment"), w') ∧
     redis w' = redis w ∧
     (∀ e, e ∈ new_effects w w' →
        e = Query (SelectDetails aid) ∨ e = Query (UpdateStatus "rejected" aid)) ∧
     (∀ n, int4in aid = Some n →
        raises w (Query (SelectDetails aid)) = false →
        raises w (Query (UpdateStatus "rejected" aid)) = false →
        new_effects w w' =
          [Query (SelectDetails aid); Query (UpdateStatus "rejected" aid)] ∧
        db w' = update_tables "rejected" n (db w)) ∧
     ((∀ n a, int4in aid = Some n → a ∈ appointments_table (db w) → id a ≠ n) →
      db w' = db w)).
Proof.
  intros Hnone. split.
  - rewrite accept_is_status_change. by apply status_change_unresolved.
  - rewrite reject_is_status_change. by apply status_change_unresolved.
Qed.

Lemma unresolved_appointment_witness :
  ∃ w',
    post_appointment_accept (H:=example_platform) app_up "99" world0 =
      (Returned (send 500 "Error accepting appointment"), w') ∧
    redis w' = redis world0.
Proof.
  destruct (unresolved_appointment (H:=example_platform) app_up "99" world0)
    as [(w' & Hrun & Hredis & _) _].
  - intros n [= <-]. vm_compute. reflexivity.
  - exists w'. split; [exact Hrun|exact Hredis].
Defined.

(** C1 as stated fails: appointment 99 does not exist, and accepting it
    sends the UPDATE to the store before answering, with a server error
    rather than a not-found answer. *)
Lemma accept_unknown_id_sends_update :
  let run := post_appointment_accept (H:=example_platform) app_up "99" world0 in
  detail_rows (db world0) 99 = [] ∧
  fst run = Returned (send 500 "Error accepting appointment") ∧
  ¬ (Query (UpdateStatus "accepted" "99") ∉ log (snd run)).
Proof.
  split; [vm_compute; reflexivity|]. split; [vm_compute; reflexivity|].
  intros Hno. apply Hno. vm_compute. right. left.
Qed.

(** An appointment whose patient is not on record does not resolve either,
    and accepting it changes its row. *)
Example accept_orphan_appointment :
  let t := mkTables [mkAppointment 50 1 9 "pending" 19740 600 630] []
             [mkDoctor 1 "Rao" "Cardiology"] in
  let run := post_appointment_accept (H:=example_platform) app_up "50"
               (mkWorld 0 t ∅ [] calm) in
  detail_rows t 50 = [] ∧
  fst run = Returned (send 500 "Error accepting appointment") ∧
  status <$> appointments_table (db (snd run)) = ["accepted"].
Proof. repeat split; vm_compute; reflexivity. Qed.

(** ** Notification *)

Lemma status_change_deliveries `{Platform} st failure app aid w :
  deliveries w (snd (status_change st failure app aid w)) =
    match resolved st aid w with
    | Some r => notified app w (event_of st aid r)
    | None => []
    end.
Proof.
  rewrite status_change_run. unfold resolved, notified, deliveries.
  destruct (int4in aid) as [n|]; simpl;
    [|by rewrite (new_effects_app w w []) by (by rewrite app_nil_r)].
  destruct (raises w (Query (SelectDetails aid))); simpl;
    [by rewrite (new_effects_app w w []) by (by rewrite app_nil_r)|].
  destruct (raises w (Query (UpdateStatus st aid))); simpl;
    [by erewrite new_effects_app by done|].
  destruct (head (detail_rows (db w) n)) as [r|]; simpl;
    [|by erewrite new_effects_app by (simpl; by rewrite <- app_assoc)].
  destruct (usable (redisClient app) && negb (raises w (Del _)));
    destruct (usable (redisPublisher app) && negb (raises w (Publish _ _)));
    destruct (io app); simpl;
    erewrite new_effects_app by (simpl; rewrite <- ?app_assoc; done); done.
Qed.

Lemma deliveries_none w : deliveries w w = [].
Proof. unfold deliveries. by rewrite (new_effects_app w w []) by (by rewrite app_nil_r). Qed.

Lemma status_update_deliveries `{Platform} app session status s w w' :
  post_status_update app session status w = (Returned (json 200 (success_body s)), w') →
  deliveries w w' =
    if usable (redisPublisher app)
    then [Publish "doctor:status:changed"
            (JSON_stringify_status
               (mkStatusEvent (sd_id session) (sd_name session) s (now w)))]
    else [].
Proof.
  rewrite status_update_run. unfold deliveries.
  destruct status as [s0|]; [|done]. simpl.
  destruct (bool_decide (s0 ∈ validStatuses)); [|done]. simpl.
  destruct (usable (redisClient app)); [|done]. simpl.
  destruct (raises w (if String.eqb s0 "offline" then _ else _)); [done|].
  destruct (usable (redisPublisher app)); simpl.
  - destruct (raises w (Publish _ _)); [done|]. intros [= <- <-].
    erewrite new_effects_app by (simpl; rewrite <- ?app_assoc; done).
    by destruct (String.eqb _ _).
  - intros [= <- <-]. erewrite new_effects_app by done. by destruct (String.eqb _ _).
Qed.

Lemma status_update_never_direct `{Platform} app session status w :
  filter is_direct (deliveries w (snd (post_status_update app session status w))) = [].
Proof.
  rewrite status_update_run.
  destruct status as [s0|]; [|by rewrite deliveries_none]. simpl.
  destruct (bool_decide (s0 ∈ validStatuses)); [|by rewrite deliveries_none]. simpl.
  destruct (usable (redisClient app)); [|by rewrite deliveries_none]. simpl.
  destruct (raises w (if String.eqb s0 "offline" then _ else _));
    [by rewrite deliveries_none|].
  destruct (usable (redisPublisher app)); simpl.
  - destruct (raises w (Publish _ _)); simpl; unfold deliveries;
      erewrite new_effects_app by (simpl; rewrite <- ?app_assoc; done);
      by destruct (String.eqb _ _).
  - unfold deliveries. erewrite new_effects_app by done. by destruct (String.eqb _ _).
Qed.

(** C3 (as amended).  When accepting or rejecting gets as far as the
    notifier, the event goes out once: on the broadcast channel when the
    publisher is usable and the publish completes, directly to the sockets
    otherwise (nowhere only when there is no [io] either), never both ways;
    the choice is made in the run, from the state of the publisher.  A
    presence change is not covered by this fallback: it is published when
    the publisher is usable and [/status/update] succeeds, and it is never
    delivered directly. *)
Theorem notification_choice `{Platform} app aid session status w :
  (∀ r, resolved "accepted" aid w = Some r →
     deliveries w (snd (post_appointment_accept app aid w)) =
       notified app w (event_of "accepted" aid r)) ∧
  (∀ r, resolved "rejected" aid w = Some r →
     deliveries w (snd (post_appointment_reject app aid w)) =
       notified app w (event_of "rejected" aid r)) ∧
  (∀ ev, (length (notified app w ev) ≤ 1)%nat ∧
     (usable (redisPublisher app)
        && negb (raises w (Publish "appointment:updated" (JSON_stringify_appointment ev)))
        = true ∨ io app ≠ None →
      length (notified app w ev) = 1%nat)) ∧
  (resolved "accepted" aid w = None →
     deliveries w (snd (post_appointment_accept app aid w)) = []) ∧
  (resolved "rejected" aid w = None →
     deliveries w (snd (post_appointment_reject app aid w)) = []) ∧
  (∀ s w', post_status_update app session status w =
             (Returned (json 200 (success_body s)), w') →
     deliveries w w' =
       if usable (redisPublisher app)
       then [Publish "doctor:status:changed"
               (JSON_stringify_status
                  (mkStatusEvent (sd_id session) (sd_name session) s (now w)))]
       else []) ∧
  filter is_direct (deliveries w (snd (post_status_update app session status w))) = [].
Proof.
  split; [|split; [|split; [|split; [|split; [|split]]]]].
  - intros r Hr. rewrite accept_is_status_change, status_change_deliveries. by rewrite Hr.
  - intros r Hr. rewrite reject_is_status_change, status_change_deliveries. by rewrite Hr.
  - intros ev. unfold notified. destruct (_ && _); simpl.
    + split; [lia|done].
    + destruct (io app); simpl; (split; [lia|]); [done|].
      by intros [? | ?].
  - intros Hr. rewrite accept_is_status_change, status_change_deliveries. by rewrite Hr.
  - intros Hr. rewrite reject_is_status_change, status_change_deliveries. by rewrite Hr.
  - intros s w'. apply status_update_deliveries.
  - apply status_update_never_direct.
Qed.

Lemma notification_choice_witness :
  deliveries world0
    (snd (post_appointment_accept (H:=example_platform) app_plain "42" world0)) =
    [Emit "appointmentStatusUpdated"
       (mkAppointmentEvent (Some 42) 8 "accepted" "Rao" "Cardiology" 19740 600 630)].
Proof.
  rewrite (proj1 (notification_choice (H:=example_platform) app_plain "42" rao None world0)
             (mkDetailRow (mkAppointment 42 1 8 "pending" 19740 600 630)
                8 "Ken" "Rao" "Cardiology")).
  - vm_compute. reflexivity.
  - vm_compute. reflexivity.
Defined.

(** C3 as stated fails for a presence change: with the cache connected, the
    publisher closed and Socket.IO present, [/status/update] succeeds and
    the event is delivered on neither channel. *)
Lemma presence_change_delivered_nowhere :
  let run := post_status_update (H:=example_platform) app_cache_only rao
               (Some "busy") world0 in
  fst run = Returned (json 200 (success_body "busy")) ∧
  io app_cache_only ≠ None ∧
  ¬ (length (deliveries world0 (snd run)) = 1%nat).
Proof.
  split; [vm_compute; reflexivity|]. split; [done|].
  vm_compute. discriminate.
Qed.

(** ** Reject against accept *)

Lemma accept_with_accepted `{Platform} :
  accept_with "accepted" = post_appointment_accept.
Proof. reflexivity. Qed.

(** C9 (as amended). Rejecting is accepting with the literal 'accepted'
    replaced by 'rejected', up to the text of the 500 answer: the two runs
    leave the same world (same queries, same cache deletion, same event),
    a run that redirects is the same run in both, and a failed run answers
    "Error rejecting appointment" where the accept route answers "Error
    accepting appointment". *)
Theorem reject_is_accept_relabelled `{Platform} app aid w :
  snd (post_appointment_reject app aid w) = snd (accept_with "rejected" app aid w) ∧
  fst (post_appointment_reject app aid w) =
    as_rejection (fst (accept_with "rejected" app aid w)) ∧
  (∀ path, fst (accept_with "rejected" app aid w) = Returned (redirect path) →
     post_appointment_reject app aid w = accept_with "rejected" app aid w).
Proof.
  rewrite reject_is_status_change. unfold accept_with. rewrite !status_change_run.
  destruct (int4in aid) as [n|]; [|done].
  destruct (raises w (Query (SelectDetails aid))); [done|].
  destruct (raises w (Query (UpdateStatus "rejected" aid))); [done|].
  destruct (head (detail_rows (db w) n)) as [r|]; [|done]. simpl.
  destruct (usable (redisPublisher app) && negb (raises w (Publish _ _))); [done|].
  by destruct (io app).
Qed.

Lemma reject_is_accept_relabelled_witness :
  post_appointment_reject (H:=example_platform) app_up "42" world0 =
    accept_with (H:=example_platform) "rejected" app_up "42" world0.
Proof.
  apply (proj2 (proj2 (reject_is_accept_relabelled (H:=example_platform) app_up "42" world0))
           "/doctors/dashboard").
  vm_compute. reflexivity.
Defined.

(** C9 as stated fails on a failing run: the two answers differ in their
    text. *)
Lemma reject_differs_from_accept_with_rejected :
  post_appointment_reject (H:=example_platform) app_up "99" world0 ≠
    accept_with (H:=example_platform) "rejected" app_up "99" world0.
Proof.
  intros Heq. apply (f_equal fst) in Heq. vm_compute in Heq. discriminate.
Qed.

(** ** All statuses *)

Lemma insert_all_lookup (f : Z → string) (ids : list Z) (acc : gmap Z string) k :
  foldl (λ m i, <[i := f i]> m) acc ids !! k =
    if decide (k ∈ ids) then Some (f k) else acc !! k.
Proof.
  revert acc. induction ids as [|i ids IH]; intros acc; cbn [foldl].
  - rewrite decide_False; [done|]. apply not_elem_of_nil.
  - rewrite IH. destruct (decide (k ∈ ids)) as [Hin|Hnin].
    + rewrite decide_True; [done|]. by right.
    + destruct (decide (k = i)) as [->|Hne].
      * rewrite lookup_insert_eq. rewrite decide_True; [done|]. by left.
      * rewrite lookup_insert_ne by done. rewrite decide_False; [done|].
        intros [?|?]%elem_of_cons; done.
Qed.

Lemma insert_all_dom (f : Z → string) (ids : list Z) :
  dom (foldl (λ m i, <[i := f i]> m) (∅ : gmap Z string) ids) = list_to_set ids.
Proof.
  apply set_eq. intros k. rewrite elem_of_dom, insert_all_lookup, elem_of_list_to_set.
  destruct (decide (k ∈ ids)); [by split; eauto|].
  rewrite lookup_empty. split; [by intros [? ?]|done].
Qed.

(** The loop over the doctor ids reads the cache and changes nothing. *)
Lemma lookup_statuses_run ids acc w :
  (∀ i, i ∈ ids → raises w (Get ("doctor:status:" +:+ pretty i)) = false) →
  ∃ w',
    lookup_statuses ids acc w =
      (Returned (foldl (λ m i, <[i := presence w i]> m) acc ids), w') ∧
    now w' = now w ∧ db w' = db w ∧ redis w' = redis w ∧ raises w' = raises w.
Proof.
  revert acc w. induction ids as [|i ids IH]; intros acc w Hcalm; simpl.
  - by exists w.
  - unfold_monad. unfold_calls. unfold remote.
    rewrite Hcalm by (by left).
    destruct (IH (<[i := presence w i]> acc) (logged (Get ("doctor:status:" +:+ pretty i)) w))
      as (w' & Hrun & Hnow & Hdb & Hredis & Hraises).
    { intros j Hj. simpl. apply Hcalm. by right. }
    exists w'. split; [exact Hrun|]. by rewrite Hnow, Hdb, Hredis, Hraises.
Qed.

(** C10 (as amended). When the store answers and no cache read raises,
    [/status/all] returns a map whose keys are exactly the doctor ids of
    the store; each value is the presence the cache holds for that doctor,
    offline when the key is absent, expired or empty, and offline for
    everyone when the cache client is not usable. *)
Theorem all_statuses app w :
  let ids := d_id <$> doctors_table (db w) in
  raises w (Query SelectDoctorIds) = false →
  (usable (redisClient app) = true →
   ∀ i, i ∈ ids → raises w (Get ("doctor:status:" +:+ pretty i)) = false) →
  ∃ statuses w',
    get_status_all app w = (Returned (json 200 (statuses_body statuses)), w') ∧
    dom statuses = list_to_set ids ∧
    ∀ i, i ∈ ids →
      statuses !! i = Some (if usable (redisClient app) then presence w i else "offline").
Proof.
  intros ids Hq Hcalm. unfold get_status_all. unfold_monad. unfold_calls. unfold remote.
  rewrite Hq. fold ids. destruct (usable (redisClient app)).
  - destruct (lookup_statuses_run ids ∅ (logged (Query SelectDoctorIds) w))
      as (w' & Hrun & _); [by apply Hcalm|].
    rewrite Hrun. eexists _, _. split; [done|].
    split; [apply (insert_all_dom (presence w))|].
    intros i Hi. rewrite (insert_all_lookup (presence w)). by rewrite decide_True.
  - eexists _, _. split; [done|]. unfold all_offline.
    split; [apply (insert_all_dom (λ _, "offline"))|].
    intros i Hi. rewrite (insert_all_lookup (λ _, "offline")). by rewrite decide_True.
Qed.

Lemma all_statuses_witness :
  ∃ statuses w',
    get_status_all app_plain world0 = (Returned (json 200 (statuses_body statuses)), w') ∧
    dom statuses = {[ 1 ]} ∧ statuses !! 1 = Some "offline".
Proof.
  destruct (all_statuses app_plain world0) as (statuses & w' & Hrun & Hdom & Hval).
  - reflexivity.
  - intros Hopen. discriminate Hopen.
  - exists statuses, w'. split; [exact Hrun|]. split.
    + rewrite Hdom. simpl. apply set_eq. intros k. set_solver.
    + apply Hval. by left.
Defined.

(** C10 as stated fails: the store answers, the cache client is open and
    its read raises; the answer is a 500 and not a map. *)
Lemma status_all_cache_read_raises :
  let w := with_raises cache_down world0 in
  raises w (Query SelectDoctorIds) = false ∧
  fst (get_status_all app_up w) =
    Returned (json 500 (error_body "Failed to get statuses")) ∧
  ¬ ∃ statuses, fst (get_status_all app_up w) = Returned (json 200 (statuses_body statuses)).
Proof.
  split; [reflexivity|]. split; [vm_compute; reflexivity|].
  intros (statuses & Hrun). vm_compute in Hrun. discriminate.
Qed.

(** * Further properties of the routes *)

(** ** Keys *)

Lemma status_key_inj s1 s2 : status_key s1 = status_key s2 → sd_id s1 = sd_id s2.
Proof.
  unfold status_key. intros Heq.
  apply (inj (String.app _)) in Heq. by apply (inj pretty) in Heq.
Qed.

Lemma listing_key_inj s1 s2 : listing_key s1 = listing_key s2 → sd_id s1 = sd_id s2.
Proof.
  unfold listing_key. intros Heq.
  apply (inj (String.app _)) in Heq. by apply (inj pretty) in Heq.
Qed.

Lemma listing_key_not_status_key (i j : Z) :
  "appointments:" +:+ pretty i ≠ "doctor:status:" +:+ pretty j.
Proof. intros Heq. cbv [String.append] in Heq. discriminate. Qed.

Lemma truthy_Some text : text ≠ "" → truthy (Some text) = true.
Proof. intros Hne. simpl. by apply String.eqb_neq in Hne as ->. Qed.

(** ** The dashboard, beyond the miss *)

(** X1. A live, non-empty, parsable entry under the doctor's key is a hit: the
    parsed rows are rendered with [fromCache] true, and the only operation of
    the run is the read of the key: the store is not queried and the cache
    is not written. *)
Theorem dashboard_hit_serves_cache `{Platform} app session w text expiry rows :
  usable (redisClient app) = true →
  raises w (Get (listing_key session)) = false →
  redis w !! listing_key session = Some (text, expiry) →
  (∀ t, expiry = Some t → (now w < t)%nat) →
  text ≠ "" →
  JSON_parse text = Some rows →
  get_dashboard app session w =
    (Returned (render "doctors/dashboard" (mkLocals session None rows true)),
     logged (Get (listing_key session)) w).
Proof.
  intros Hopen Hget Hkey Hlive Htext Hparse. apply get_dashboard_hit.
  unfold cache_lookup. rewrite Hopen, Hget, Hkey. simpl.
  assert (live (now w) (text, expiry) = Some text) as ->.
  { unfold live. simpl. destruct expiry as [t|]; [|done].
    rewrite decide_False; [done|]. specialize (Hlive t eq_refl). lia. }
  simpl. apply String.eqb_neq in Htext as ->. done.
Qed.

Lemma dashboard_hit_serves_cache_witness :
  get_dashboard (H:=example_platform) app_up rao world_cached =
    (Returned (render "doctors/dashboard" (mkLocals rao None [] true)),
     logged (Get "appointments:1") world_cached).
Proof.
  apply (dashboard_hit_serves_cache (H:=example_platform) app_up rao world_cached
           "[]" (Some 1045%nat) []).
  - reflexivity.
  - reflexivity.
  - vm_compute. reflexivity.
  - intros t [= <-]. simpl. lia.
  - discriminate.
  - reflexivity.
Defined.

Ltac elem_cases H :=
  repeat (apply elem_of_cons in H as [-> | H]); [..|by apply elem_of_nil in H].




(** X3. A dashboard read leaves the store alone and, in the cache, every key
    but the doctor's listing key; its only operations are the read of that
    key, the listing query and the write of that key for 45 seconds. *)
Theorem dashboard_footprint `{Platform} app session w :
  let w' := snd (get_dashboard app session w) in
  db w' = db w ∧ now w' = now w ∧
  (∀ k, k ≠ listing_key session → redis w' !! k = redis w !! k) ∧
  (∀ e, e ∈ new_effects w w' →
     e = Get (listing_key session) ∨
     e = Query (SelectListing (sd_id session)) ∨
     ∃ text, e = SetEx (listing_key session) 45 text).
Proof.
  destruct (cache_lookup app session w) as [hit|] eqn:Hlook.
  - rewrite (get_dashboard_hit _ _ _ _ Hlook). simpl.
    split; [done|]. split; [done|]. split; [done|].
    rewrite (new_effects_app w _ [Get (listing_key session)]) by done.
    intros e He. elem_cases He. by left.
  - destruct (get_dashboard_miss app session w Hlook) as (w0 & Hw0 & ->).
    destruct (raises w (Query _)); [|destruct (_ && _)]; simpl;
      destruct Hw0 as [-> | ->]; simpl;
      (split; [done|]); (split; [done|]);
      (split; [intros k Hk; by rewrite ?lookup_insert_ne by done|]);
      first [ rewrite (new_effects_app w w []) by (by rewrite app_nil_r)
            | erewrite new_effects_app by (simpl; rewrite <- ?app_assoc; done) ];
      intros e He; elem_cases He; eauto.
Qed.

(** ** Accepting and rejecting, step by step *)

Lemma status_route_change `{Platform} st handler :
  status_route st handler → ∃ failure, handler = status_change st failure.
Proof. intros [|]; eexists; reflexivity. Qed.

Lemma resolved_Some `{Platform} st aid w r :
  resolved st aid w = Some r →
  ∃ n, int4in aid = Some n ∧
       raises w (Query (SelectDetails aid)) = false ∧
       raises w (Query (UpdateStatus st aid)) = false ∧
       head (detail_rows (db w) n) = Some r.
Proof.
  unfold resolved. destruct (int4in aid) as [n|]; [|done]. simpl.
  destruct (raises w (Query (SelectDetails aid))); [done|].
  destruct (raises w (Query (UpdateStatus st aid))); [done|]. simpl.
  intros Hr. by exists n.
Qed.

(** The run of a status change that found its row. *)
Lemma status_change_resolved `{Platform} st failure app aid w r n :
  resolved st aid w = Some r → int4in aid = Some n →
  let w' := snd (status_change st failure app aid w) in
  fst (status_change st failure app aid w) =
    (if notified app w (event_of st aid r) is [] then Returned (send 500 failure)
     else Returned (redirect "/doctors/dashboard")) ∧
  new_effects w w' =
    ([Query (SelectDetails aid); Query (UpdateStatus st aid)]
       ++ invalidated app w r ++ notified app w (event_of st aid r))%list ∧
  db w' = update_tables st n (db w) ∧
  redis w' =
    (if invalidated app w r is []
     then redis w
     else delete ("appointments:" +:+ pretty (doctor_id (r_appt r))) (redis w)) ∧
  now w' = now w ∧ raises w' = raises w.
Proof.
  intros Hr Hn. apply resolved_Some in Hr as (n' & Hn' & Hq1 & Hq2 & Hhead).
  assert (n' = n) as -> by congruence.
  rewrite status_change_run. rewrite Hn, Hq1, Hq2, Hhead. unfold notified, invalidated.
  destruct (usable (redisClient app) && negb (raises w (Del _)));
    destruct (usable (redisPublisher app) && negb (raises w (Publish _ _)));
    destruct (io app); simpl;
    (split; [done|]);
    (split; [erewrite new_effects_app by (simpl; rewrite <- ?app_assoc; done); done|]);
    done.
Qed.

(** The run of a status change that did not. *)
Lemma status_change_not_resolved `{Platform} st failure app aid w :
  resolved st aid w = None →
  let w' := snd (status_change st failure app aid w) in
  fst (status_change st failure app aid w) = Returned (send 500 failure) ∧
  redis w' = redis w ∧ now w' = now w ∧ raises w' = raises w.
Proof.
  unfold resolved. rewrite status_change_run.
  destruct (int4in aid) as [n|]; [|done]. simpl.
  destruct (raises w (Query (SelectDetails aid))); [done|].
  destruct (raises w (Query (UpdateStatus st aid))); [done|]. simpl.
  by intros ->.
Qed.

(** X4. The operations of a status change come in one order: the SELECT, the
    UPDATE, the deletion of the doctor's listing key (when the client is
    usable and the deletion completes) and only then the event. *)
Theorem invalidation_before_event `{Platform} st handler app aid w r :
  status_route st handler →
  resolved st aid w = Some r →
  new_effects w (snd (handler app aid w)) =
    ([Query (SelectDetails aid); Query (UpdateStatus st aid)]
       ++ invalidated app w r ++ notified app w (event_of st aid r))%list.
Proof.
  intros [failure ->]%status_route_change Hr.
  destruct (resolved_Some _ _ _ _ Hr) as (n & Hn & _).
  by destruct (status_change_resolved st failure app aid w r n Hr Hn) as (_ & ? & _).
Qed.

Lemma invalidation_before_event_witness :
  new_effects world_cached
    (snd (post_appointment_accept (H:=example_platform) app_up "42" world_cached)) =
    [Query (SelectDetails "42"); Query (UpdateStatus "accepted" "42");
     Del "appointments:1";
     Publish "appointment:updated"
       "{appointmentId:42,patientId:8,status:accepted,doctorName:Rao}"].
Proof.
  rewrite (invalidation_before_event (H:=example_platform) "accepted" _ app_up "42"
             world_cached
             (mkDetailRow (mkAppointment 42 1 8 "pending" 19740 600 630)
                8 "Ken" "Rao" "Cardiology")).
  - vm_compute. reflexivity.
  - constructor.
  - vm_compute. reflexivity.
Defined.

(** X5. A status change answers the redirect exactly when its event went out,
    on one channel or the other; in every other case it answers a 500. *)
Theorem redirect_iff_notified `{Platform} st handler app aid w :
  status_route st handler →
  (fst (handler app aid w) = Returned (redirect "/doctors/dashboard") ↔
   ∃ r, resolved st aid w = Some r ∧ notified app w (event_of st aid r) ≠ []) ∧
  (fst (handler app aid w) = Returned (redirect "/doctors/dashboard") ∨
   ∃ text, fst (handler app aid w) = Returned (send 500 text)).
Proof.
  intros [failure ->]%status_route_change.
  destruct (resolved st aid w) as [r|] eqn:Hr.
  - destruct (resolved_Some _ _ _ _ Hr) as (n & Hn & _).
    destruct (status_change_resolved st failure app aid w r n Hr Hn) as (-> & _).
    destruct (notified app w (event_of st aid r)) as [|e l] eqn:Hnot.
    + split; [|right; by eexists]. split; [done|]. intros (r' & [= <-] & Hne).
      by rewrite Hnot in Hne.
    + split; [|by left]. split; [|done]. intros _. exists r. by rewrite Hnot.
  - destruct (status_change_not_resolved st failure app aid w Hr) as (-> & _).
    split; [|right; by eexists]. split; [done|]. by intros (r & ? & _).
Qed.

Lemma redirect_iff_notified_witness :
  fst (post_appointment_reject (H:=example_platform) app_plain "42" world0) =
    Returned (redirect "/doctors/dashboard").
Proof.
  apply (proj1 (redirect_iff_notified (H:=example_platform) "rejected" _ app_plain "42"
                  world0 reject_route)).
  eexists. split; [vm_compute; reflexivity|]. vm_compute. discriminate.
Defined.

(** The tables, the clock and the oracle after a status change, whatever
    became of the cache and of the event. *)
Lemma status_change_store `{Platform} st failure app aid w :
  let w' := snd (status_change st failure app aid w) in
  db w' =
    match int4in aid with
    | Some n =>
        if raises w (Query (SelectDetails aid))
           || raises w (Query (UpdateStatus st aid))
        then db w else update_tables st n (db w)
    | None => db w
    end ∧
  now w' = now w ∧ raises w' = raises w.
Proof.
  rewrite status_change_run.
  destruct (int4in aid) as [n|]; [|done].
  destruct (raises w (Query (SelectDetails aid))); [done|].
  destruct (raises w (Query (UpdateStatus st aid))); [done|]. simpl.
  destruct (head (detail_rows (db w) n)) as [r|]; [|done].
  destruct (usable (redisClient app) && negb (raises w (Del _)));
    destruct (usable (redisPublisher app) && negb (raises w (Publish _ _)));
    by destruct (io app).
Qed.

Lemma updated_rows_twice s1 s2 n l :
  updated_rows s2 n (updated_rows s1 n l) = updated_rows s2 n l.
Proof.
  unfold updated_rows. rewrite <- list_fmap_compose. apply list_fmap_ext.
  intros _ a _. simpl. destruct (decide (id a = n)) as [Hid|Hid]; simpl.
  - by rewrite decide_True.
  - by rewrite decide_False.
Qed.

(** X6. Once the SELECT and the UPDATE have completed the new status is in the
    store, whatever follows (no row found, a failing cache, an event that
    cannot be delivered, a 500 answer): every appointment with that id has
    the new status, whatever its status was, and nothing else changes:
    same appointments in the same order, other rows untouched, patients and
    doctors untouched. *)
Theorem update_is_not_rolled_back `{Platform} st handler app aid w n :
  status_route st handler →
  int4in aid = Some n →
  raises w (Query (SelectDetails aid)) = false →
  raises w (Query (UpdateStatus st aid)) = false →
  let t := db w in
  let t' := db (snd (handler app aid w)) in
  t' = update_tables st n t ∧
  id <$> appointments_table t' = id <$> appointments_table t ∧
  (∀ i a, appointments_table t !! i = Some a →
     appointments_table t' !! i =
       Some (if decide (id a = n) then with_status st a else a)) ∧
  (∀ a, a ∈ appointments_table t' → id a = n → status a = st) ∧
  patients_table t' = patients_table t ∧ doctors_table t' = doctors_table t.
Proof.
  intros [failure ->]%status_route_change Hn Hq1 Hq2 t t'.
  assert (t' = update_tables st n t) as ->.
  { unfold t'. destruct (status_change_store st failure app aid w) as (-> & _).
    by rewrite Hn, Hq1, Hq2. }
  split; [done|]. simpl. unfold updated_rows. split; [|split; [|split; [|done]]].
  - rewrite <- list_fmap_compose. apply list_fmap_ext. intros _ a _. simpl.
    by destruct (decide (id a = n)).
  - intros i a Hi. by rewrite list_lookup_fmap, Hi.
  - intros a (a0 & -> & _)%list_elem_of_fmap.
    destruct (decide (id a0 = n)); [done|]. by intros ?.
Qed.

Lemma update_is_not_rolled_back_witness :
  status <$> appointments_table
    (db (snd (post_appointment_reject (H:=example_platform)
                (mkApp None None None) "41" world0))) =
    ["rejected"; "pending"; "accepted"].
Proof.
  destruct (update_is_not_rolled_back (H:=example_platform) "rejected" _
              (mkApp None None None) "41" world0 41 reject_route eq_refl eq_refl eq_refl)
    as (-> & _).
  vm_compute. reflexivity.
Defined.

(** X7. Two status changes on one appointment: the last one wins.  There is no
    guard on the earlier status, so a reject after an accept leaves the
    appointment rejected, as if the accept had never run. *)
Theorem last_status_change_wins `{Platform} st1 h1 st2 h2 app1 app2 aid w n :
  status_route st1 h1 → status_route st2 h2 →
  int4in aid = Some n →
  raises w (Query (SelectDetails aid)) = false →
  raises w (Query (UpdateStatus st1 aid)) = false →
  raises w (Query (UpdateStatus st2 aid)) = false →
  db (snd (h2 app2 aid (snd (h1 app1 aid w)))) = update_tables st2 n (db w).
Proof.
  intros [f1 ->]%status_route_change [f2 ->]%status_route_change Hn Hq Hq1 Hq2.
  destruct (status_change_store st1 f1 app1 aid w) as (Hdb1 & _ & Hr1).
  destruct (status_change_store st2 f2 app2 aid (snd (status_change st1 f1 app1 aid w)))
    as (-> & _).
  rewrite Hn, Hr1, Hq, Hq2, Hdb1, Hn, Hq, Hq1. simpl.
  unfold update_tables. simpl. by rewrite updated_rows_twice.
Qed.

Lemma last_status_change_wins_witness :
  status <$> appointments_table
    (db (snd (post_appointment_reject (H:=example_platform) app_up "42"
                (snd (post_appointment_accept (H:=example_platform) app_up "42" world0))))) =
    ["accepted"; "rejected"; "accepted"].
Proof.
  rewrite (last_status_change_wins (H:=example_platform) "accepted" _ "rejected" _
             app_up app_up "42" world0 42 accept_route reject_route
             eq_refl eq_refl eq_refl eq_refl).
  vm_compute. reflexivity.
Defined.

Lemma cache_lookup_absent `{Platform} app session w :
  redis w !! listing_key session = None → cache_lookup app session w = None.
Proof. intros Hk. unfold cache_lookup. rewrite Hk. simpl. by destruct (_ && _). Qed.

(** X8. Write, invalidate, read, one after the other.  A status change
    that found its row and deleted the doctor's listing key leaves that key
    absent.  A dashboard read of that doctor that starts from the world the
    change left, however much later, no other request having run in
    between (and so no dashboard read overlapping the change, whose write
    to the cache could land after the deletion), goes to the store and
    shows the new status, whatever listing the cache held before the
    change. *)
Theorem status_change_refreshes_dashboard `{Platform}
    st handler app app' aid session w r n dt :
  status_route st handler →
  resolved st aid w = Some r → int4in aid = Some n →
  doctor_id (r_appt r) = sd_id session →
  usable (redisClient app) = true →
  raises w (Del (listing_key session)) = false →
  raises w (Query (SelectListing (sd_id session))) = false →
  let w1 := snd (handler app aid w) in
  redis w1 !! listing_key session = None ∧
  fst (get_dashboard app' session (advance dt w1)) =
    Returned (render "doctors/dashboard"
      (mkLocals session None
         (listing_rows (update_tables st n (db w)) (sd_id session)) false)).
Proof.
  intros [failure ->]%status_route_change Hr Hn Hdoc Hopen Hdel Hq w1.
  destruct (status_change_resolved st failure app aid w r n Hr Hn)
    as (_ & _ & Hdb & Hredis & _ & Hraises). fold w1 in Hdb, Hredis, Hraises.
  unfold invalidated in Hredis. rewrite Hdoc in Hredis. fold (listing_key session) in Hredis.
  rewrite Hopen, Hdel in Hredis. simpl in Hredis.
  assert (redis w1 !! listing_key session = None) as Hgone.
  { rewrite Hredis. apply lookup_delete_eq. }
  split; [done|].
  destruct (get_dashboard_miss app' session (advance dt w1)
              (cache_lookup_absent _ _ (advance dt w1) Hgone)) as (w0 & _ & ->).
  simpl. rewrite Hraises, Hq, Hdb. by destruct (_ && _).
Qed.

Lemma status_change_refreshes_dashboard_witness :
  fst (get_dashboard (H:=example_platform) app_up rao
         (advance 5
            (snd (post_appointment_accept (H:=example_platform) app_up "42"
                    world_cached)))) =
    Returned (render "doctors/dashboard"
      (mkLocals rao None (listing_rows (update_tables "accepted" 42 clinic) 1) false)).
Proof.
  apply (status_change_refreshes_dashboard (H:=example_platform) "accepted" _
           app_up app_up "42" rao world_cached
           (mkDetailRow (mkAppointment 42 1 8 "pending" 19740 600 630)
              8 "Ken" "Rao" "Cardiology") 42 5).
  - constructor.
  - vm_compute. reflexivity.
  - reflexivity.
  - reflexivity.
  - reflexivity.
  - reflexivity.
  - reflexivity.
Defined.

(** X9. A failed invalidation is swallowed: when the cache client is unusable
    or the deletion raises, the status change goes on as if nothing had
    happened (the store is updated, the answer depends on the event alone)
    and the cache keeps what it had, so that a listing cached before the
    change is still served after it. *)
Theorem failed_invalidation_is_swallowed `{Platform} st handler app aid w r n :
  status_route st handler →
  resolved st aid w = Some r → int4in aid = Some n →
  usable (redisClient app) = false ∨
    raises w (Del ("appointments:" +:+ pretty (doctor_id (r_appt r)))) = true →
  let w1 := snd (handler app aid w) in
  redis w1 = redis w ∧ db w1 = update_tables st n (db w) ∧
  (notified app w (event_of st aid r) ≠ [] →
   fst (handler app aid w) = Returned (redirect "/doctors/dashboard")) ∧
  (∀ app' session rows, cache_lookup app' session w = Some rows →
     fst (get_dashboard app' session w1) =
       Returned (render "doctors/dashboard" (mkLocals session None rows true))).
Proof.
  intros [failure ->]%status_route_change Hr Hn Hfail w1.
  destruct (status_change_resolved st failure app aid w r n Hr Hn)
    as (Hfst & _ & Hdb & Hredis & Hnow & Hraises). fold w1 in Hdb, Hredis, Hnow, Hraises.
  assert (invalidated app w r = []) as Hinv.
  { unfold invalidated. destruct Hfail as [-> | ->]; [done|]. by rewrite andb_false_r. }
  rewrite Hinv in Hredis. split; [done|]. split; [done|]. split.
  - intros Hne. rewrite Hfst. by destruct (notified _ _ _).
  - intros app' session rows Hhit.
    rewrite (get_dashboard_hit app' session w1 rows); [done|].
    unfold cache_lookup in *. by rewrite Hraises, Hredis, Hnow.
Qed.

Lemma failed_invalidation_is_swallowed_witness :
  let w1 := snd (post_appointment_accept (H:=example_platform) app_up "42"
                   (with_raises cache_down world_cached)) in
  status <$> appointments_table (db w1) = ["accepted"; "accepted"; "accepted"] ∧
  fst (get_dashboard (H:=example_platform) app_up rao (with_raises calm w1)) =
    Returned (render "doctors/dashboard" (mkLocals rao None [] true)).
Proof.
  destruct (failed_invalidation_is_swallowed (H:=example_platform) "accepted" _
              app_up "42" (with_raises cache_down world_cached)
              (mkDetailRow (mkAppointment 42 1 8 "pending" 19740 600 630)
                 8 "Ken" "Rao" "Cardiology") 42 accept_route)
    as (Hredis & Hdb & _ & _).
  - vm_compute. reflexivity.
  - reflexivity.
  - by right.
  - split.
    + rewrite Hdb. vm_compute. reflexivity.
    + vm_compute. reflexivity.
Defined.

(** X10. A store failure stops a status change where it happens.  When the key
    is refused or the SELECT raises, the answer is a 500 and the world is
    untouched; when the UPDATE raises, the answer is a 500 and the run
    consists of the SELECT alone: no row changes, no key is deleted and no
    event goes out. *)
Theorem store_failure_stops_status_change `{Platform} st handler app aid w :
  status_route st handler →
  (int4in aid = None ∨ raises w (Query (SelectDetails aid)) = true →
   ∃ text, handler app aid w = (Returned (send 500 text), w)) ∧
  (is_Some (int4in aid) →
   raises w (Query (SelectDetails aid)) = false →
   raises w (Query (UpdateStatus st aid)) = true →
   ∃ text, handler app aid w =
             (Returned (send 500 text), logged (Query (SelectDetails aid)) w)).
Proof.
  intros [failure ->]%status_route_change. split.
  - intros Hfail. exists failure. rewrite status_change_run.
    destruct (int4in aid) as [n|]; [|done].
    destruct Hfail as [? | ->]; done.
  - intros [n Hn] Hq1 Hq2. exists failure. rewrite status_change_run.
    by rewrite Hn, Hq1, Hq2.
Qed.

Lemma store_failure_stops_status_change_witness :
  (∃ text, post_appointment_accept (H:=example_platform) app_up "42"
             (with_raises store_down world0) =
           (Returned (send 500 text), with_raises store_down world0)) ∧
  (∃ text, post_appointment_accept (H:=example_platform) app_up "forty-two" world0 =
           (Returned (send 500 text), world0)).
Proof.
  split.
  - apply (store_failure_stops_status_change (H:=example_platform) "accepted" _ app_up
             "42" (with_raises store_down world0) accept_route).
    by right.
  - apply (store_failure_stops_status_change (H:=example_platform) "accepted" _ app_up
             "forty-two" world0 accept_route).
    by left.
Defined.

(** What [/status] answers depends on the world only through the oracle,
    the clock and the doctor's presence key. *)
Lemma get_status_same `{Platform} app session w w' :
  raises w' = raises w → now w' = now w →
  redis w' !! status_key session = redis w !! status_key session →
  fst (get_status app session w') = fst (get_status app session w).
Proof. intros Hr Hn Hk. rewrite !get_status_run. by rewrite Hr, Hn, Hk. Qed.

(** X11. In the cache a status change touches at most one key, the listing key
    of the appointment's doctor, which it deletes; presence is out of its
    reach: [/status] answers after it what it answered before. *)
Theorem status_change_cache_footprint `{Platform} st handler app aid w :
  status_route st handler →
  let w' := snd (handler app aid w) in
  (∀ k, redis w' !! k = redis w !! k ∨
        (redis w' !! k = None ∧
         ∃ r, resolved st aid w = Some r ∧
              k = "appointments:" +:+ pretty (doctor_id (r_appt r)))) ∧
  (∀ app' session,
     fst (get_status app' session w') = fst (get_status app' session w)).
Proof.
  intros [failure ->]%status_route_change w'.
  destruct (resolved st aid w) as [r|] eqn:Hr.
  - destruct (resolved_Some _ _ _ _ Hr) as (n & Hn & _).
    destruct (status_change_resolved st failure app aid w r n Hr Hn)
      as (_ & _ & _ & Hredis & Hnow & Hraises). fold w' in Hredis, Hnow, Hraises.
    destruct (invalidated app w r).
    + rewrite Hredis. split; [by left|]. intros app' session.
      apply get_status_same; by rewrite ?Hredis.
    + rewrite Hredis. split.
      * intros k. destruct (decide (k = "appointments:" +:+ pretty (doctor_id (r_appt r))))
          as [-> | Hk].
        -- right. rewrite lookup_delete_eq. eauto.
        -- left. by rewrite lookup_delete_ne.
      * intros app' session. apply get_status_same; [done..|].
        rewrite Hredis. apply lookup_delete_ne. apply listing_key_not_status_key.
  - destruct (status_change_not_resolved st failure app aid w Hr)
      as (_ & Hredis & Hnow & Hraises). fold w' in Hredis, Hnow, Hraises.
    rewrite Hredis. split; [by left|]. intros app' session.
    apply get_status_same; by rewrite ?Hredis.
Qed.

Lemma status_change_cache_footprint_witness :
  fst (get_status app_up rao
         (snd (post_appointment_accept (H:=example_platform) app_up "42" world0))) =
  fst (get_status app_up rao world0).
Proof.
  apply (status_change_cache_footprint (H:=example_platform) "accepted" _ app_up "42"
           world0 accept_route).
Defined.

Lemma detail_rows_elem t n r :
  r ∈ detail_rows t n →
  ∃ a p d,
    a ∈ appointments_table t ∧ id a = n ∧
    p ∈ patients_table t ∧ p_id p = patient_id a ∧
    d ∈ doctors_table t ∧ d_id d = doctor_id a ∧
    r = mkDetailRow a (p_id p) (p_name p) (d_name d) (d_specialization d).
Proof.
  unfold detail_rows. intros Hr.
  apply list_elem_of_bind in Hr as (a & Hr & [Ha1 Ha2]%list_elem_of_filter).
  apply list_elem_of_bind in Hr as (p & Hr & [Hp1 Hp2]%list_elem_of_filter).
  apply list_elem_of_bind in Hr as (d & Hr & [Hd1 Hd2]%list_elem_of_filter).
  apply list_elem_of_singleton in Hr. by exists a, p, d.
Qed.

(** X12. The event of a status change describes the appointment that was asked
    for: what the notifier sends out is built from an appointment of the
    store with that id, as it was before the update: its own patient's id,
    the name and specialization of its own doctor, its date and times, and
    the new status in place of the old. *)
Theorem event_describes_the_appointment `{Platform} st handler app aid w r n :
  status_route st handler →
  resolved st aid w = Some r → int4in aid = Some n →
  ∃ a p d,
    a ∈ appointments_table (db w) ∧ id a = n ∧
    p ∈ patients_table (db w) ∧ p_id p = patient_id a ∧
    d ∈ doctors_table (db w) ∧ d_id d = doctor_id a ∧
    deliveries w (snd (handler app aid w)) =
      notified app w
        (mkAppointmentEvent (parseInt aid) (patient_id a) st (d_name d)
           (d_specialization d) (appointment_date a) (start_time a) (end_time a)).
Proof.
  intros [failure ->]%status_route_change Hr Hn.
  rewrite status_change_deliveries, Hr.
  apply resolved_Some in Hr as (n' & Hn' & _ & _ & Hhead).
  assert (n' = n) as -> by congruence.
  apply head_Some in Hhead as (rest & Hrows).
  destruct (detail_rows_elem (db w) n r) as (a & p & d & Ha & Hid & Hp & Hpid & Hd & Hdid & ->).
  { rewrite Hrows. left. }
  exists a, p, d. repeat (split; [done|]). unfold event_of. simpl. by rewrite Hpid.
Qed.

Lemma event_describes_the_appointment_witness :
  ∃ a p d,
    a ∈ appointments_table clinic ∧ id a = 42 ∧
    p ∈ patients_table clinic ∧ p_id p = patient_id a ∧
    d ∈ doctors_table clinic ∧ d_id d = doctor_id a ∧
    deliveries world0
      (snd (post_appointment_accept (H:=example_platform) app_plain "42" world0)) =
      notified (H:=example_platform) app_plain world0
        (mkAppointmentEvent (parseInt (Platform:=example_platform) "42") (patient_id a)
           "accepted" (d_name d) (d_specialization d)
           (appointment_date a) (start_time a) (end_time a)).
Proof.
  apply (event_describes_the_appointment (H:=example_platform) "accepted" _ app_plain
           "42" world0
           (mkDetailRow (mkAppointment 42 1 8 "pending" 19740 600 630)
              8 "Ken" "Rao" "Cardiology") 42 accept_route).
  - vm_compute. reflexivity.
  - reflexivity.
Defined.

(** ** Presence, beyond the expiry *)

(** X13. A valid status that cannot be stored leaves no trace.  With the cache
    client unusable the answer is 503; with the write raising it is 500; in
    both cases the world is as it was: nothing is stored and, even with a
    usable publisher, nothing is published. *)
Theorem status_not_stored_leaves_no_trace `{Platform} app session s w :
  s ∈ validStatuses →
  (usable (redisClient app) = false →
   post_status_update app session (Some s) w =
     (Returned (json 503 (error_body "Redis unavailable")), w)) ∧
  (usable (redisClient app) = true →
   raises w (if String.eqb s "offline" then Set_ (status_key session) s
             else SetEx (status_key session) 1800 s) = true →
   post_status_update app session (Some s) w =
     (Returned (json 500 (error_body "Failed to update status")), w)).
Proof.
  intros Hin. rewrite status_update_run. rewrite bool_decide_eq_true_2 by done. simpl.
  split.
  - by intros ->.
  - intros -> Hraise. simpl. by rewrite Hraise.
Qed.

Lemma status_not_stored_leaves_no_trace_witness :
  post_status_update (H:=example_platform) app_plain rao (Some "available") world0 =
    (Returned (json 503 (error_body "Redis unavailable")), world0) ∧
  post_status_update (H:=example_platform) app_up rao (Some "offline")
    (with_raises cache_down world0) =
    (Returned (json 500 (error_body "Failed to update status")),
     with_raises cache_down world0).
Proof.
  split.
  - apply (status_not_stored_leaves_no_trace (H:=example_platform) app_plain rao
             "available" world0).
    + by apply (bool_decide_unpack _).
    + reflexivity.
  - apply (status_not_stored_leaves_no_trace (H:=example_platform) app_up rao
             "offline" (with_raises cache_down world0)).
    + by apply (bool_decide_unpack _).
    + reflexivity.
    + reflexivity.
Defined.

Lemma status_update_frame `{Platform} app session status w :
  let w' := snd (post_status_update app session status w) in
  db w' = db w ∧ now w' = now w ∧ raises w' = raises w ∧
  ∀ k, k ≠ status_key session → redis w' !! k = redis w !! k.
Proof.
  rewrite status_update_run.
  destruct status as [s|]; [|done]. simpl.
  destruct (bool_decide (s ∈ validStatuses)); [|done]. simpl.
  destruct (usable (redisClient app)); [|done]. simpl.
  destruct (raises w (if String.eqb s "offline" then _ else _)); [done|].
  destruct (usable (redisPublisher app)); simpl;
    [destruct (raises w (Publish _ _)); simpl|];
    repeat (split; [done|]); intros k Hk; by rewrite lookup_insert_ne.
Qed.

(** X14. A status update stays within the doctor's own presence key: the store
    is untouched, every other key of the cache keeps its entry, another
    doctor's [/status] answers what it did, and no cached listing is
    affected. *)
Theorem status_update_footprint `{Platform} app session status w :
  let w' := snd (post_status_update app session status w) in
  db w' = db w ∧ now w' = now w ∧ raises w' = raises w ∧
  (∀ k, k ≠ status_key session → redis w' !! k = redis w !! k) ∧
  (∀ app' session', sd_id session' ≠ sd_id session →
     fst (get_status app' session' w') = fst (get_status app' session' w)) ∧
  (∀ app' session', cache_lookup app' session' w' = cache_lookup app' session' w).
Proof.
  intros w'.
  destruct (status_update_frame app session status w) as (Hdb & Hnow & Hraises & Hredis).
  fold w' in Hdb, Hnow, Hraises, Hredis.
  repeat (split; [done|]). split.
  - intros app' session' Hother. apply get_status_same; [done..|].
    apply Hredis. intros Heq. by apply Hother, status_key_inj.
  - intros app' session'. unfold cache_lookup. rewrite Hraises, Hnow.
    rewrite Hredis; [done|]. unfold listing_key, status_key.
    apply listing_key_not_status_key.
Qed.

Lemma get_status_world `{Platform} app session w :
  snd (get_status app session w) =
    if usable (redisClient app) && negb (raises w (Get (status_key session)))
    then logged (Get (status_key session)) w else w.
Proof.
  unfold get_status, status_key. unfold_monad. unfold_calls. unfold remote.
  destruct (usable (redisClient app)); [|done].
  by destruct (raises w (Get _)).
Qed.

(** X15. [/status] answers the presence the cache holds, and offline when
    it cannot tell.  With the client usable and the read completing, the
    answer is the live, non-empty entry of the doctor's key; in every other
    case (client unusable, read raising, key absent, expired or empty) it
    is offline.  The answer is always a 200, the store and the cache are
    left as they were, and the only operation is the read of that key. *)
Theorem status_reads_presence `{Platform} app session w :
  let w' := snd (get_status app session w) in
  let entry := redis w !! status_key session ≫= live (now w) in
  (∀ s, usable (redisClient app) = true →
        raises w (Get (status_key session)) = false →
        entry = Some s → s ≠ "" →
        fst (get_status app session w) = Returned (json 200 (status_body s))) ∧
  (usable (redisClient app) = false ∨
   raises w (Get (status_key session)) = true ∨
   entry = None ∨ entry = Some "" →
   fst (get_status app session w) = Returned (json 200 (status_body "offline"))) ∧
  db w' = db w ∧ redis w' = redis w ∧
  (∀ e, e ∈ new_effects w w' → e = Get (status_key session)).
Proof.
  intros w' entry. split; [|split].
  - intros s Hopen Hget Hentry Hne. rewrite get_status_run. fold entry.
    rewrite Hopen, Hget, Hentry. simpl. by apply String.eqb_neq in Hne as ->.
  - intros Hcase. rewrite get_status_run. fold entry.
    destruct (usable (redisClient app)); simpl; [|done].
    destruct (raises w (Get _)); simpl; [done|].
    destruct Hcase as [? | [? | [-> | ->]]]; done.
  - unfold w'. rewrite get_status_world.
    destruct (_ && _); simpl; (split; [done|]); (split; [done|]).
    + rewrite (new_effects_app w _ [Get (status_key session)]) by done.
      intros e He. by elem_cases He.
    + rewrite (new_effects_app w w []) by (by rewrite app_nil_r).
      by intros e ?%elem_of_nil.
Qed.

(** ** All statuses, beyond the map *)

(** The loop stops at the first read that raises. *)
Lemma lookup_statuses_raises ids acc w i :
  i ∈ ids → raises w (Get ("doctor:status:" +:+ pretty i)) = true →
  ∃ w', lookup_statuses ids acc w = (Thrown RedisError, w').
Proof.
  revert acc w. induction ids as [|j ids IH]; intros acc w Hin Hraise.
  - by apply elem_of_nil in Hin.
  - simpl. unfold_monad. unfold_calls. unfold remote.
    destruct (raises w (Get ("doctor:status:" +:+ pretty j))) eqn:Hj; [by eexists|].
    apply elem_of_cons in Hin as [-> | Hin]; [congruence|].
    apply (IH _ (logged (Get ("doctor:status:" +:+ pretty j)) w)); done.
Qed.

(** Whether it completes or raises, the loop only reads. *)
Lemma lookup_statuses_frame ids acc w :
  let w' := snd (lookup_statuses ids acc w) in
  db w' = db w ∧ redis w' = redis w ∧ now w' = now w ∧ raises w' = raises w ∧
  ∃ l : list Effect, log w' = (log w ++ l)%list ∧ Forall (λ e, ∃ k, e = Get k) l.
Proof.
  revert acc w. induction ids as [|j ids IH]; intros acc w; simpl.
  - repeat (split; [done|]). exists []. by rewrite app_nil_r.
  - unfold_monad. unfold_calls. unfold remote.
    destruct (raises w (Get ("doctor:status:" +:+ pretty j))) eqn:Hj; simpl.
    + repeat (split; [done|]). exists []. by rewrite app_nil_r.
    + specialize (IH (<[j := presence w j]> acc)
                     (logged (Get ("doctor:status:" +:+ pretty j)) w)).
      simpl in IH. unfold presence in IH.
      destruct (lookup_statuses ids _ _) as [o w1]. simpl in *.
      destruct IH as (? & ? & ? & ? & l & Hl & Hall).
      destruct o; simpl; repeat (split; [done|]);
        exists (Get ("doctor:status:" +:+ pretty j) :: l);
        (split; [by rewrite Hl, <- app_assoc|]); constructor; eauto.
Qed.

(** X17. Every failure of [/status/all] is a 500 without a map: when the query
    for the doctor ids raises (the world is then untouched, no key being
    read), and when the client is usable and the read of one doctor's key
    raises, whatever the other keys hold. *)
Theorem status_all_failures app w :
  (raises w (Query SelectDoctorIds) = true →
   get_status_all app w =
     (Returned (json 500 (error_body "Failed to get statuses")), w)) ∧
  (∀ i, raises w (Query SelectDoctorIds) = false →
     usable (redisClient app) = true →
     i ∈ d_id <$> doctors_table (db w) →
     raises w (Get ("doctor:status:" +:+ pretty i)) = true →
     fst (get_status_all app w) =
       Returned (json 500 (error_body "Failed to get statuses"))).
Proof.
  split.
  - intros Hq. unfold get_status_all. unfold_monad. unfold_calls. unfold remote.
    by rewrite Hq.
  - intros i Hq Hopen Hin Hraise.
    unfold get_status_all. unfold_monad. unfold_calls. unfold remote.
    rewrite Hq, Hopen.
    destruct (lookup_statuses_raises (d_id <$> doctors_table (db w)) ∅
                (logged (Query SelectDoctorIds) w) i Hin Hraise) as (w' & Hrun).
    simpl in Hrun. by rewrite Hrun.
Qed.

Lemma status_all_failures_witness :
  get_status_all app_up (with_raises store_down world0) =
    (Returned (json 500 (error_body "Failed to get statuses")),
     with_raises store_down world0) ∧
  fst (get_status_all app_up (with_raises cache_down world0)) =
    Returned (json 500 (error_body "Failed to get statuses")).
Proof.
  split.
  - by apply (status_all_failures app_up (with_raises store_down world0)).
  - apply (proj2 (status_all_failures app_up (with_raises cache_down world0)) 1).
    + reflexivity.
    + reflexivity.
    + by left.
    + reflexivity.
Defined.

(** X18. [/status/all] is a pure read: whatever it answers, the store and the
    cache are as they were, and its operations are the query for the doctor
    ids followed by reads of keys, none at all when the client is not
    usable. *)
Theorem status_all_only_reads app w :
  let w' := snd (get_status_all app w) in
  db w' = db w ∧ redis w' = redis w ∧ now w' = now w ∧
  (∀ e, e ∈ new_effects w w' → e = Query SelectDoctorIds ∨ ∃ k, e = Get k) ∧
  (usable (redisClient app) = false → ∀ e, e ∈ new_effects w w' → e = Query SelectDoctorIds).
Proof.
  unfold get_status_all. unfold_monad. unfold_calls. unfold remote.
  destruct (raises w (Query SelectDoctorIds)); simpl.
  { repeat (split; [done|]).
    rewrite (new_effects_app w w []) by (by rewrite app_nil_r).
    split; [|intros _]; by intros e ?%elem_of_nil. }
  destruct (usable (redisClient app)); simpl.
  - pose proof (lookup_statuses_frame (d_id <$> doctors_table (db w)) ∅
                  (logged (Query SelectDoctorIds) w)) as Hframe.
    simpl in Hframe. destruct (lookup_statuses _ _ _) as [o w1]. simpl in Hframe.
    destruct Hframe as (Hdb & Hredis & Hnow & _ & l & Hl & Hall).
    assert (new_effects w w1 = Query SelectDoctorIds :: l) as Hnew.
    { apply new_effects_app. by rewrite Hl, <- app_assoc. }
    destruct o as [m|err]; simpl; repeat (split; [done|]); (split; [|done]);
      rewrite Hnew; intros e' [-> | He]%elem_of_cons; eauto;
      right; by apply (proj1 (Forall_forall _ _) Hall).
  - repeat (split; [done|]).
    rewrite (new_effects_app w _ [Query SelectDoctorIds]) by done.
    split; [|intros _]; intros e He; elem_cases He; eauto.
Qed.

(** The map of a run in which nothing raises. *)
Lemma get_status_all_completes app w :
  raises w (Query SelectDoctorIds) = false →
  (usable (redisClient app) = true →
   ∀ i, i ∈ d_id <$> doctors_table (db w) →
        raises w (Get ("doctor:status:" +:+ pretty i)) = false) →
  fst (get_status_all app w) =
    Returned (json 200 (statuses_body
      (foldl (λ m i, <[i := if usable (redisClient app) then presence w i
                            else "offline"]> m)
         ∅ (d_id <$> doctors_table (db w))))).
Proof.
  intros Hq Hcalm. unfold get_status_all. unfold_monad. unfold_calls. unfold remote.
  rewrite Hq. destruct (usable (redisClient app)); [|done].
  destruct (lookup_statuses_run (d_id <$> doctors_table (db w)) ∅
              (logged (Query SelectDoctorIds) w)) as (w' & Hrun & _); [by apply Hcalm|].
  simpl in Hrun. by rewrite Hrun.
Qed.

(** X19. The two reads of presence agree: for a doctor of the store, the entry
    of [/status/all] is the status [/status] answers for that doctor in the
    same world. *)
Theorem status_all_agrees_with_status `{Platform} app w session :
  raises w (Query SelectDoctorIds) = false →
  (usable (redisClient app) = true →
   ∀ i, i ∈ d_id <$> doctors_table (db w) →
        raises w (Get ("doctor:status:" +:+ pretty i)) = false) →
  sd_id session ∈ d_id <$> doctors_table (db w) →
  ∃ statuses s,
    fst (get_status_all app w) = Returned (json 200 (statuses_body statuses)) ∧
    fst (get_status app session w) = Returned (json 200 (status_body s)) ∧
    statuses !! sd_id session = Some s.
Proof.
  intros Hq Hcalm Hin. eexists _, _.
  split; [by apply get_status_all_completes|].
  split; [apply get_status_run|].
  rewrite (insert_all_lookup
             (λ i, if usable (redisClient app) then presence w i else "offline")).
  rewrite decide_True by done. f_equal.
  destruct (usable (redisClient app)) eqn:Hopen; [|done]. simpl.
  unfold status_key. by rewrite (Hcalm eq_refl _ Hin).
Qed.

Lemma status_all_agrees_with_status_witness :
  ∃ statuses s,
    fst (get_status_all app_up world0) = Returned (json 200 (statuses_body statuses)) ∧
    fst (get_status app_up rao world0) = Returned (json 200 (status_body s)) ∧
    statuses !! 1 = Some s.
Proof.
  apply (status_all_agrees_with_status (H:=example_platform) app_up world0 rao).
  - reflexivity.
  - intros _ i _. reflexivity.
  - by left.
Defined.

(** X20. A stored status shows in the map.  After a successful [/status/update]
    to [s], and for as long as the entry lives (for ever for offline, less
    than 1800 seconds otherwise), [/status/all] maps the doctor to [s],
    provided the doctor is in the store and the cache can be read. *)
Theorem stored_status_shows_in_all `{Platform} app app' session status s w w' dt :
  post_status_update app session status w = (Returned (json 200 (success_body s)), w') →
  s = "offline" ∨ (dt < 1800)%nat →
  usable (redisClient app') = true →
  raises w (Query SelectDoctorIds) = false →
  (∀ i, i ∈ d_id <$> doctors_table (db w) →
        raises w (Get ("doctor:status:" +:+ pretty i)) = false) →
  sd_id session ∈ d_id <$> doctors_table (db w) →
  ∃ statuses,
    fst (get_status_all app' (advance dt w')) =
      Returned (json 200 (statuses_body statuses)) ∧
    statuses !! sd_id session = Some s.
Proof.
  intros Hrun Hlive Hopen Hq Hcalm Hin.
  destruct (status_update_frame app session status w) as (Hdb & _ & Hraises & _).
  rewrite Hrun in Hdb, Hraises. simpl in Hdb, Hraises.
  apply status_update_success in Hrun as (_ & Hvalid & Hnow & Hkey).
  eexists. split.
  - apply get_status_all_completes; simpl; rewrite ?Hraises, ?Hdb; [done|].
    intros _. exact Hcalm.
  - rewrite (insert_all_lookup
               (λ i, if usable (redisClient app') then presence (advance dt w') i
                     else "offline")).
    simpl. rewrite Hdb, decide_True by done. rewrite Hopen. f_equal.
    unfold presence. simpl. fold (status_key session). rewrite Hkey. simpl.
    unfold live. simpl.
    assert (s ≠ "") as Hne.
    { intros ->. unfold validStatuses in Hvalid.
      repeat (apply elem_of_cons in Hvalid as [? | Hvalid]; [done|]).
      by apply elem_of_nil in Hvalid. }
    apply String.eqb_neq in Hne.
    destruct (String.eqb s "offline") eqn:Hoff; simpl.
    + by rewrite Hne.
    + destruct Hlive as [-> | Hdt]; [done|].
      rewrite decide_False by lia. simpl. by rewrite Hne.
Qed.

Lemma stored_status_shows_in_all_witness :
  ∃ statuses,
    fst (get_status_all app_up
           (advance 1799
              (snd (post_status_update (H:=example_platform) app_up rao (Some "busy")
                      world0)))) =
      Returned (json 200 (statuses_body statuses)) ∧
    statuses !! 1 = Some "busy".
Proof.
  apply (stored_status_shows_in_all (H:=example_platform) app_up app_up rao
           (Some "busy") "busy" world0 _ 1799).
  - vm_compute. reflexivity.
  - right. lia.
  - reflexivity.
  - reflexivity.
  - intros i _. reflexivity.
  - by left.
Defined.

(** ** The connection test *)

(** X21. The script prints what it wrote.  When the client connects and the
    write and the read complete, the two lines are the greeting and the
    value 'Hello Redis', whatever the key held before and however long ago;
    the key is left holding that value without expiry; and the client is
    disconnected exactly when [disconnect] completes. *)
Theorem test_redis_prints_what_it_wrote disconnect message w :
  raises w (Set_ "test" "Hello Redis") = false →
  raises w (Get "test") = false →
  let '(t, w') := test_redis None disconnect message w in
  printed t = ["✅ Connected to Redis!"; "✅ Value: Hello Redis"] ∧
  redis w' !! "test" = Some ("Hello Redis", None) ∧
  (∀ k, k ≠ "test" → redis w' !! k = redis w !! k) ∧
  new_effects w w' = [Set_ "test" "Hello Redis"; Get "test"] ∧
  (disconnected t = true ↔ disconnect = None) ∧
  (complained t = [] ↔ disconnect = None).
Proof.
  intros Hset Hget. unfold test_redis, redis_set, redis_get, remote.
  rewrite Hset. simpl. rewrite Hget. rewrite lookup_insert_eq. simpl.
  destruct disconnect as [err|]; simpl;
    (split; [done|]); (split; [by rewrite lookup_insert_eq|]);
    (split; [intros k Hk; by rewrite lookup_insert_ne|]);
    (split; [apply new_effects_app; simpl; by rewrite <- app_assoc|]);
    split; split; done.
Qed.

Lemma test_redis_prints_what_it_wrote_witness :
  printed (fst (test_redis None None (λ _, "timeout")
                  (set_redis {[ "test" := ("stale", Some 5%nat) ]} world0))) =
    ["✅ Connected to Redis!"; "✅ Value: Hello Redis"].
Proof.
  pose proof (test_redis_prints_what_it_wrote None (λ _, "timeout")
                (set_redis {[ "test" := ("stale", Some 5%nat) ]} world0)
                eq_refl eq_refl) as Hrun.
  destruct (test_redis _ _ _ _) as [t w']. exact (proj1 Hrun).
Defined.

(** X22. The script reports a failure once and stops there.  Whatever raises
    (the connection, the write, the read or the disconnection), the catch
    block prints exactly one line; after a failure the client is not
    disconnected, even when it had connected; the value line is printed
    only for the value read back after the script's own write; and without
    a failure nothing is reported. *)
Theorem test_redis_reports_one_failure connect disconnect message w :
  let t := fst (test_redis connect disconnect message w) in
  let failed :=
    is_Some connect ∨ raises w (Set_ "test" "Hello Redis") = true ∨
    raises w (Get "test") = true ∨ is_Some disconnect in
  (failed → (∃ err, complained t = [failure_line (message err)]) ∧
            disconnected t = false) ∧
  (¬ failed → complained t = [] ∧ disconnected t = true) ∧
  (is_Some connect → printed t = []) ∧
  (∀ line, line ∈ printed t →
     line = "✅ Connected to Redis!" ∨ line = "✅ Value: Hello Redis").
Proof.
  unfold test_redis, redis_set, redis_get, remote.
  destruct connect as [cerr|]; simpl.
  { split; [intros _; split; [by eexists|done]|].
    split; [intros Hok; exfalso; apply Hok; left; by eexists|].
    split; [done|]. by intros line ?%elem_of_nil. }
  destruct (raises w (Set_ "test" "Hello Redis")) eqn:Hset; simpl.
  { split; [intros _; split; [by eexists|done]|].
    split; [intros Hok; exfalso; apply Hok; right; by left|].
    split; [by intros [? [=]]|]. intros line Hl. elem_cases Hl. by left. }
  destruct (raises w (Get "test")) eqn:Hget; simpl.
  { split; [intros _; split; [by eexists|done]|].
    split; [intros Hok; exfalso; apply Hok; right; right; by left|].
    split; [by intros [? [=]]|]. intros line Hl. elem_cases Hl. by left. }
  rewrite lookup_insert_eq. simpl.
  destruct disconnect as [derr|]; simpl.
  { split; [intros _; split; [by eexists|done]|].
    split; [intros Hok; exfalso; apply Hok; do 3 right; by eexists|].
    split; [by intros [? [=]]|]. intros line Hl. elem_cases Hl; by eauto. }
  split.
  { intros [[? [=]] | [[=] | [[=] | [? [=]]]]]. }
  split; [done|]. split; [by intros [? [=]]|].
  intros line Hl. elem_cases Hl; by eauto.
Qed.

(** ** The answers of [/status/update] *)

(** X16. [/status/update] answers success exactly when the status is valid,
    the cache client is usable, the write completes and the publisher
    either is not usable or completes its publish.  Its other answers are
    400 (invalid status), 503 (client unusable) and 500 (the write or the
    publish raised). *)
Theorem status_update_answers `{Platform} app session status w :
  let answer := fst (post_status_update app session status w) in
  (∀ s,
     answer = Returned (json 200 (success_body s)) ↔
     status = Some s ∧ s ∈ validStatuses ∧ usable (redisClient app) = true ∧
     raises w (if String.eqb s "offline" then Set_ (status_key session) s
               else SetEx (status_key session) 1800 s) = false ∧
     (usable (redisPublisher app) = true →
      raises w (Publish "doctor:status:changed"
                  (JSON_stringify_status
                     (mkStatusEvent (sd_id session) (sd_name session) s (now w))))
        = false)) ∧
  ((∃ s, answer = Returned (json 200 (success_body s))) ∨
   answer = Returned (json 400
     (error_body "Invalid status. Must be available, busy, or offline.")) ∨
   answer = Returned (json 503 (error_body "Redis unavailable")) ∨
   answer = Returned (json 500 (error_body "Failed to update status"))).
Proof.
  intros answer. unfold answer. rewrite status_update_run.
  destruct status as [s0|]; simpl;
    [|split; [by intros s; split; [|intros [? _]]|by right; left]].
  destruct (bool_decide_reflect (s0 ∈ validStatuses)) as [Hin|Hnin]; simpl;
    [|split; [intros s; split; [done|by intros ([= ->] & ? & _)]|by right; left]].
  destruct (usable (redisClient app)); simpl;
    [|split; [intros s; split; [done|by intros (_ & _ & ? & _)]|by right; right; left]].
  destruct (raises w (if String.eqb s0 "offline" then _ else _)) eqn:Hstore; simpl.
  { split; [|by do 3 right]. intros s; split; [done|].
    intros ([= ->] & _ & _ & Hs & _). congruence. }
  destruct (usable (redisPublisher app)); simpl.
  - destruct (raises w (Publish _ _)) eqn:Hpub; simpl.
    + split; [|by do 3 right]. intros s; split; [done|].
      intros ([= ->] & _ & _ & _ & Hp). specialize (Hp eq_refl). congruence.
    + split; [|left; by eexists]. intros s; split.
      * intros [= <-]. by repeat split.
      * by intros ([= ->] & _).
  - split; [|left; by eexists]. intros s; split.
    + intros [= <-]. by repeat split.
    + by intros ([= ->] & _).
Qed.

(** ** The statements above at work on the clinic *)

Lemma dashboard_footprint_witness :
  redis (snd (get_dashboard (H:=example_platform) app_up rao world0)) !! status_key rao =
    redis world0 !! status_key rao.
Proof.
  apply (dashboard_footprint (H:=example_platform) app_up rao world0).
  intros Heq. symmetry in Heq. by apply listing_key_not_status_key in Heq.
Defined.

Lemma status_update_footprint_witness :
  fst (get_status app_up sen
         (snd (post_status_update (H:=example_platform) app_up rao (Some "busy") world0))) =
  fst (get_status app_up sen world0).
Proof.
  apply (status_update_footprint (H:=example_platform) app_up rao (Some "busy") world0).
  discriminate.
Defined.

Lemma status_reads_presence_witness :
  fst (get_status app_up rao
         (set_redis {[ status_key rao := ("busy", Some 2800%nat) ]} world0)) =
    Returned (json 200 (status_body "busy")) ∧
  fst (get_status app_plain rao
         (set_redis {[ status_key rao := ("busy", Some 2800%nat) ]} world0)) =
    Returned (json 200 (status_body "offline")).
Proof.
  split.
  - apply (proj1 (status_reads_presence (H:=example_platform) app_up rao
                    (set_redis {[ status_key rao := ("busy", Some 2800%nat) ]} world0))).
    + reflexivity.
    + reflexivity.
    + vm_compute. reflexivity.
    + discriminate.
  - apply (proj1 (proj2 (status_reads_presence (H:=example_platform) app_plain rao
                    (set_redis {[ status_key rao := ("busy", Some 2800%nat) ]} world0)))).
    by left.
Defined.

Lemma status_update_answers_witness :
  fst (post_status_update (H:=example_platform) app_cache_only rao (Some "offline") world0) =
    Returned (json 200 (success_body "offline")).
Proof.
  apply (proj1 (status_update_answers (H:=example_platform) app_cache_only rao
                  (Some "offline") world0) "offline").
  split; [reflexivity|]. split; [by apply (bool_decide_unpack _)|].
  split; [reflexivity|]. split; [reflexivity|]. discriminate.
Defined.

Lemma status_all_only_reads_witness :
  Forall (λ e, e = Query SelectDoctorIds)
    (new_effects world0 (snd (get_status_all app_plain world0))).
Proof.
  apply Forall_forall.
  apply (status_all_only_reads app_plain world0). reflexivity.
Defined.

Lemma test_redis_reports_one_failure_witness :
  printed (fst (test_redis (Some RedisError) None (λ _, "ECONNREFUSED") world0)) = [] ∧
  disconnected (fst (test_redis None None (λ _, "ECONNREFUSED")
                       (with_raises cache_down world0))) = false.
Proof.
  split.
  - apply (test_redis_reports_one_failure (Some RedisError) None (λ _, "ECONNREFUSED")
             world0).
    by eexists.
  - apply (test_redis_reports_one_failure None None (λ _, "ECONNREFUSED")
             (with_raises cache_down world0)).
    right. by left.
Defined.
